(** * Complaint classifier: keyword classification, entity extraction, severity

    A shallow embedding of [libraries/complaint_classifier.py]
    ([ComplaintClassifier.classify] and [ComplaintClassifier.extract_key_info])
    together with the parts of the Python runtime these two methods rely on:
    strings as sequences of code points, insertion-ordered dictionaries,
    [max], [float], and the backtracking semantics of the three regular
    expressions handed to [re.findall]. *)

From Stdlib Require Import List Bool Arith NArith ZArith QArith Qreduction.
From Stdlib Require Import String Ascii Lia.
Import ListNotations.

Close Scope Q_scope.
Set Implicit Arguments.

(** ** Python values used by the classifier *)

Module Py.

(** A Python [str] is a sequence of Unicode code points. *)
Definition char := N.
Definition str := list char.

(** Source literals are written as UTF-8 text and decoded to code points. *)
Fixpoint bytes_of (s : string) : list N :=
  match s with
  | EmptyString => []
  | String a s' => N_of_ascii a :: bytes_of s'
  end.

Fixpoint utf8 (bs : list N) (need : nat) (acc : N) : str :=
  match bs with
  | [] => []
  | b :: bs' =>
      match need with
      | O =>
          if (b <? 128)%N then b :: utf8 bs' 0 0%N
          else if (b <? 224)%N then utf8 bs' 1 (b - 192)%N
          else if (b <? 240)%N then utf8 bs' 2 (b - 224)%N
          else utf8 bs' 3 (b - 240)%N
      | S n =>
          let acc' := (acc * 64 + (b - 128))%N in
          match n with
          | O => acc' :: utf8 bs' 0 0%N
          | S _ => utf8 bs' n acc'
          end
      end
  end.

Definition u (s : string) : str := utf8 (bytes_of s) 0 0%N.

Fixpoint str_eqb (a b : str) : bool :=
  match a, b with
  | [], [] => true
  | x :: a', y :: b' => (x =? y)%N && str_eqb a' b'
  | _, _ => false
  end.

(** [s.startswith(p)] and the operator [p in s] on strings. *)
Fixpoint startswith (p s : str) : bool :=
  match p, s with
  | [], _ => true
  | _ :: _, [] => false
  | x :: p', y :: s' => (x =? y)%N && startswith p' s'
  end.

Fixpoint contains (p s : str) : bool :=
  startswith p s ||
  match s with
  | [] => false
  | _ :: s' => contains p s'
  end.

(** Truth value of a string: only the empty string is falsy. *)
Definition truthy (s : str) : bool :=
  match s with [] => false | _ :: _ => true end.

(** The values stored in the result dictionary and returned by
    [re.findall]: strings, tuples of strings, floats. *)
Inductive value : Type :=
| VStr (s : str)
| VTuple (t : list str)
| VFloat (q : Q).

(** *** Exceptions *)

(** The subclasses of [Exception] that the modelled code can meet. *)
Inductive exn : Type :=
| TypeError
| ValueError
| KeyError
| IndexError
| LookupError
| RuntimeError.

Inductive outcome (A : Type) : Type :=
| Ret (a : A)
| Raise (e : exn).

Arguments Ret {A} a.
Arguments Raise {A} e.

Definition bind {A B} (m : outcome A) (f : A -> outcome B) : outcome B :=
  match m with
  | Ret a => f a
  | Raise e => Raise e
  end.

(** [for x in xs: st = body(st, x)], stopping at the first exception. *)
Fixpoint for_each {A S} (xs : list A) (body : S -> A -> outcome S) (st : S)
  : outcome S :=
  match xs with
  | [] => Ret st
  | x :: xs' => bind (body st x) (for_each xs' body)
  end.

(** *** Dictionaries

    A [dict] keeps its keys unique and iterates in insertion order;
    assigning to a key that is present keeps its position. *)
Definition dict (V : Type) := list (str * V).

Fixpoint dict_get {V} (d : dict V) (k : str) : option V :=
  match d with
  | [] => None
  | (k', v) :: d' => if str_eqb k k' then Some v else dict_get d' k
  end.

Fixpoint dict_set {V} (d : dict V) (k : str) (v : V) : dict V :=
  match d with
  | [] => [(k, v)]
  | (k', v') :: d' =>
      if str_eqb k k' then (k', v) :: d' else (k', v') :: dict_set d' k v
  end.

Definition keys {V} (d : dict V) : list str := map fst d.
Definition values {V} (d : dict V) : list V := map snd d.
Definition items {V} (d : dict V) : list (str * V) := d.

(** [d[k]]: raises [KeyError] on a missing key. *)
Definition subscript {V} (d : dict V) (k : str) : outcome V :=
  match dict_get d k with
  | Some v => Ret v
  | None => Raise KeyError
  end.

(** [d[k] += 1] *)
Definition incr (d : dict Z) (k : str) : outcome (dict Z) :=
  bind (subscript d k) (fun n => Ret (dict_set d k (n + 1)%Z)).

(** [{k: v for k in ks}] *)
Definition dict_from_keys {V} (ks : list str) (v : V) : dict V :=
  fold_left (fun d k => dict_set d k v) ks [].

(** *** [max]

    [max(xs)] raises [ValueError] on an empty sequence; the running best is
    replaced only by a strictly greater element, so the first maximal
    element is the one returned.  [max(xs, key=f)] compares [f x]. *)
Fixpoint max_from {A} (f : A -> Z) (best : A) (xs : list A) : A :=
  match xs with
  | [] => best
  | x :: xs' => max_from f (if (f best <? f x)%Z then x else best) xs'
  end.

Definition max_key {A} (f : A -> Z) (xs : list A) : outcome A :=
  match xs with
  | [] => Raise ValueError
  | x :: xs' => Ret (max_from f x xs')
  end.

Definition max (xs : list Z) : outcome Z := max_key (fun z => z) xs.

(** *** Unicode character classes

    [Py_UNICODE_TODECIMAL]: the decimal value of a code point of category
    Nd.  Every Nd block is a run of ten code points for the digits 0-9; the
    list holds the zero of each block (Unicode 14, the database of
    CPython 3.11). *)
Definition decimal_zeros : list N :=
  [ 0x30; 0x660; 0x6f0; 0x7c0; 0x966; 0x9e6; 0xa66; 0xae6; 0xb66; 0xbe6;
    0xc66; 0xce6; 0xd66; 0xde6; 0xe50; 0xed0; 0xf20; 0x1040; 0x1090;
    0x17e0; 0x1810; 0x1946; 0x19d0; 0x1a80; 0x1a90; 0x1b50; 0x1bb0;
    0x1c40; 0x1c50; 0xa620; 0xa8d0; 0xa900; 0xa9d0; 0xa9f0; 0xaa50;
    0xabf0; 0xff10; 0x104a0; 0x10d30; 0x11066; 0x110f0; 0x11136; 0x111d0;
    0x112f0; 0x11450; 0x114d0; 0x11650; 0x116c0; 0x11730; 0x118e0;
    0x11950; 0x11c50; 0x11d50; 0x11da0; 0x16a60; 0x16ac0; 0x16b50;
    0x1d7ce; 0x1d7d8; 0x1d7e2; 0x1d7ec; 0x1d7f6; 0x1e140; 0x1e2f0;
    0x1e950; 0x1fbf0 ]%N.

Fixpoint decimal_in (zs : list N) (c : char) : option N :=
  match zs with
  | [] => None
  | z :: zs' =>
      if ((z <=? c) && (c <? z + 10))%N then Some (c - z)%N
      else decimal_in zs' c
  end.

Definition to_decimal (c : char) : option N := decimal_in decimal_zeros c.

Definition isdecimal (c : char) : bool :=
  match to_decimal c with Some _ => true | None => false end.

(** [Py_UNICODE_ISSPACE], the class behind [\s] and [str.split()]. *)
Definition isspace (c : char) : bool :=
  ((9 <=? c) && (c <=? 13) || (28 <=? c) && (c <=? 32)
   || (c =? 0x85) || (c =? 0xa0) || (c =? 0x1680)
   || (0x2000 <=? c) && (c <=? 0x200a)
   || (c =? 0x2028) || (c =? 0x2029) || (c =? 0x202f)
   || (c =? 0x205f) || (c =? 0x3000))%N.

(** [s.split()]: maximal runs of non-whitespace characters. *)
Fixpoint split_from (s : str) (cur : str) : list str :=
  match s with
  | [] => match cur with [] => [] | _ :: _ => [rev cur] end
  | c :: s' =>
      if isspace c
      then match cur with
           | [] => split_from s' []
           | _ :: _ => rev cur :: split_from s' []
           end
      else split_from s' (c :: cur)
  end.

Definition split (s : str) : list str := split_from s [].

(** [str.lower] on text whose cased characters are all ASCII. *)
Definition ascii_lower (s : str) : str :=
  map (fun c => if ((65 <=? c) && (c <=? 90))%N then (c + 32)%N else c) s.

(** *** [float]

    [float(s)] on a string in plain decimal notation: an optional sign, then
    digits with an optional point.  Digits are read through
    [Py_UNICODE_TODECIMAL], as CPython does before parsing.  The result
    stands for the double nearest to the numeral and is kept as the exact
    rational value of the numeral (a numeral beyond the range of doubles
    rounds to [inf], which keeps its sign).  The other spellings [float] accepts
    (exponents, [inf], [nan], underscores, surrounding blanks) cannot come
    out of the amount pattern and are left out: here they raise
    [ValueError] like any unparsable text. *)
Fixpoint digits (s : str) : option (list N) :=
  match s with
  | [] => Some []
  | c :: s' =>
      match to_decimal c, digits s' with
      | Some d, Some ds => Some (d :: ds)
      | _, _ => None
      end
  end.

Definition numeral (ds : list N) : N :=
  fold_left (fun acc d => (acc * 10 + d)%N) ds 0%N.

Fixpoint span_digits (s : str) : str * str :=
  match s with
  | [] => ([], [])
  | c :: s' =>
      if isdecimal c
      then let (a, b) := span_digits s' in (c :: a, b)
      else ([], s)
  end.

Definition pow10 (n : nat) : positive := Nat.iter n (Pos.mul 10) 1%positive.

Definition unsigned_float (s : str) : outcome Q :=
  let (ip, rest) := span_digits s in
  match rest with
  | [] =>
      match ip, digits ip with
      | _ :: _, Some ds => Ret (inject_Z (Z.of_N (numeral ds)))
      | _, _ => Raise ValueError
      end
  | c :: fp =>
      if (c =? 46)%N then
        match digits ip, digits fp with
        | Some di, Some df =>
            match ip ++ fp with
            | [] => Raise ValueError
            | _ :: _ =>
                Ret (Qred (Z.of_N (numeral (di ++ df))
                           # pow10 (List.length df)))
            end
        | _, _ => Raise ValueError
        end
      else Raise ValueError
  end.

Definition float_str (s : str) : outcome Q :=
  match s with
  | c :: s' =>
      if (c =? 45)%N then bind (unsigned_float s') (fun q => Ret (Qopp q))
      else if (c =? 43)%N then unsigned_float s'
      else unsigned_float s
  | [] => Raise ValueError
  end.

(** [float(v)] on a value: a tuple is not a number. *)
Definition float (v : value) : outcome Q :=
  match v with
  | VStr s => float_str s
  | VFloat q => Ret q
  | VTuple _ => Raise TypeError
  end.

Definition has_key {V} (d : dict V) (k : str) : bool :=
  match dict_get d k with Some _ => true | None => false end.

(** [max(d, key=d.get)]: the keys of [d] are looked up in [d] itself, so
    the key function answers the value stored with each key. *)
Definition max_by_value (d : dict Z) : outcome str :=
  bind (max_key snd (items d)) (fun kv => Ret (fst kv)).

End Py.

(** ** Regular expressions

    The constructs the three patterns of [extract_key_info] are written
    with, and the backtracking matcher of the [re] module restricted to
    them: alternatives are tried left to right, quantifiers are greedy, and
    the first way of matching that lets the rest of the pattern succeed is
    the one taken. *)

Module Re.
Import Py.

Inductive re : Type :=
| Lit (c : char)                                (* a literal character *)
| Cls (p : char -> bool)                        (* one character of a class *)
| Cat (r1 r2 : re)                              (* r1 r2 *)
| Alt (r1 r2 : re)                              (* r1 | r2 *)
| Opt (r : re)                                  (* (?: r )? *)
| Rep (p : char -> bool) (lo : nat) (hi : option nat)  (* class{lo,hi} *)
| Grp (i : nat) (r : re).                       (* capture group number i *)

(** Group number -> captured text; the latest binding of a group comes first. *)
Definition caps := list (nat * str).

Fixpoint group (c : caps) (i : nat) : option str :=
  match c with
  | [] => None
  | (j, s) :: c' => if Nat.eqb i j then Some s else group c' i
  end.

Definition below (hi : option nat) : bool :=
  match hi with
  | None => true
  | Some n => negb (Nat.eqb n 0)
  end.

Definition dec (hi : option nat) : option nat :=
  match hi with
  | None => None
  | Some n => Some (Nat.pred n)
  end.

(** Greedy repetition of a character class: take as many characters as
    allowed, give them back one at a time while the continuation fails. *)
Fixpoint rep {R} (p : char -> bool) (lo : nat) (hi : option nat) (s : str)
  (k : str -> option R) : option R :=
  let stop := match lo with O => k s | S _ => None end in
  match s with
  | [] => stop
  | c :: s' =>
      if p c && below hi then
        match rep p (Nat.pred lo) (dec hi) s' k with
        | Some x => Some x
        | None => stop
        end
      else stop
  end.

Fixpoint run {R} (r : re) (s : str) (c : caps)
  (k : str -> caps -> option R) : option R :=
  match r with
  | Lit a =>
      match s with
      | x :: s' => if (x =? a)%N then k s' c else None
      | [] => None
      end
  | Cls p =>
      match s with
      | x :: s' => if p x then k s' c else None
      | [] => None
      end
  | Cat r1 r2 => run r1 s c (fun s1 c1 => run r2 s1 c1 k)
  | Alt r1 r2 =>
      match run r1 s c k with
      | Some x => Some x
      | None => run r2 s c k
      end
  | Opt r1 =>
      match run r1 s c k with
      | Some x => Some x
      | None => k s c
      end
  | Rep p lo hi => rep p lo hi s (fun s' => k s' c)
  | Grp i r1 =>
      run r1 s c
        (fun s1 c1 =>
           k s1 ((i, firstn (List.length s - List.length s1) s) :: c1))
  end.

(** One match attempt anchored at the start of [s]: the text left over and
    the groups that took part. *)
Definition match_at (r : re) (s : str) : option (str * caps) :=
  run r s [] (fun s' c => Some (s', c)).

(** A match as [finditer] yields it: the matched text and its groups. *)
Record found : Type := Found { whole : str; groups : caps }.

(** Left-to-right scan for non-overlapping matches.  [skip] counts the
    characters of the previous match still to step over.  After an empty
    match the scan moves one character on; the patterns below never match
    the empty string, so the rule [re] applies after an empty match is not
    exercised. *)
Fixpoint scan (r : re) (s : str) (skip : nat) : list found :=
  match s with
  | [] =>
      match skip, match_at r [] with
      | O, Some (_, c) => [Found [] c]
      | _, _ => []
      end
  | _ :: s' =>
      match skip with
      | S n => scan r s' n
      | O =>
          match match_at r s with
          | Some (rest, c) =>
              let n := (List.length s - List.length rest)%nat in
              Found (firstn n s) c :: scan r s' (Nat.pred n)
          | None => scan r s' 0
          end
      end
  end.

Definition finditer (r : re) (s : str) : list found := scan r s 0.

(** What [re.findall] returns depends on the number of groups of the
    pattern: the matched texts when there is none, tuples of the groups when
    there are two or more, an unmatched group showing as the empty string. *)
Definition group_text (c : caps) (i : nat) : str :=
  match group c i with
  | Some s => s
  | None => []
  end.

Definition item_of (ngroups : nat) (m : found) : value :=
  match ngroups with
  | 0 => VStr (whole m)
  | 1 => VStr (group_text (groups m) 1)
  | _ => VTuple (map (group_text (groups m)) (seq 1 ngroups))
  end.

Fixpoint ngroups (r : re) : nat :=
  match r with
  | Lit _ | Cls _ | Rep _ _ _ => 0
  | Cat r1 r2 | Alt r1 r2 => ngroups r1 + ngroups r2
  | Opt r1 => ngroups r1
  | Grp _ r1 => S (ngroups r1)
  end.

Definition findall (r : re) (s : str) : list value :=
  map (item_of (ngroups r)) (finditer r s).

(** Character classes and sugar. *)
Definition digit : char -> bool := isdecimal.          (* \d *)
Definition space : char -> bool := isspace.            (* \s *)
Definition upper (c : char) : bool := ((65 <=? c) && (c <=? 90))%N.  (* [A-Z] *)
Definition other_than (a : char) (c : char) : bool := negb (c =? a)%N.
Definition one_of (a b : char) (c : char) : bool := ((c =? a) || (c =? b))%N.

Definition plus (p : char -> bool) : re := Rep p 1 None.
Definition star (p : char -> bool) : re := Rep p 0 None.
Definition times (p : char -> bool) (n : nat) : re := Rep p n (Some n).
Definition between (p : char -> bool) (lo hi : nat) : re := Rep p lo (Some hi).

Fixpoint cat (rs : list re) (last : re) : re :=
  match rs with
  | [] => last
  | r :: rs' => Cat r (cat rs' last)
  end.

End Re.

(** ** [ComplaintClassifier.extract_key_info] *)

Module Extract.
Import Py Re.

Definition quote : char := 34%N.       (* the double quote *)
Definition apostrophe : char := 39%N.  (* the single quote *)
Definition dollar : char := 36%N.
Definition point : char := 46%N.
Definition hyphen : char := 45%N.
Definition slash : char := 47%N.
Definition mei : char := 32654%N.      (* U+7F8E, first character of the dollar word *)
Definition yuan : char := 20803%N.     (* U+5143, the yuan word *)

(** The product pattern: a double-quoted span (group 1), or a
    single-quoted span (group 2), or [[A-Z]{2,}], which has no group. *)
Definition product_pattern : re :=
  Alt (cat [Lit quote; Grp 1 (plus (other_than quote))] (Lit quote))
 (Alt (cat [Lit apostrophe; Grp 2 (plus (other_than apostrophe))]
           (Lit apostrophe))
      (Rep upper 2 None)).

(** [\d+(?:\.\d{2})?] *)
Definition decimal : re :=
  Cat (plus digit) (Opt (Cat (Lit point) (times digit 2))).

(** [\$\s*(D)|(D)\s*美元|(D)\s*元] with [D] the decimal above. *)
Definition amount_pattern : re :=
  Alt (cat [Lit dollar; star space] (Grp 1 decimal))
 (Alt (cat [Grp 2 decimal; star space; Lit mei] (Lit yuan))
      (cat [Grp 3 decimal; star space] (Lit yuan))).

Definition sep : char -> bool := one_of hyphen slash.   (* [-/] *)

(** [\d{4}[-/]\d{1,2}[-/]\d{1,2}|\d{1,2}[-/]\d{1,2}[-/]\d{4}|\d{1,2}[-/]\d{1,2}[-/]\d{2}] *)
Definition date_pattern : re :=
  Alt (cat [times digit 4; Cls sep; between digit 1 2; Cls sep]
           (between digit 1 2))
 (Alt (cat [between digit 1 2; Cls sep; between digit 1 2; Cls sep]
           (times digit 4))
      (cat [between digit 1 2; Cls sep; between digit 1 2; Cls sep]
           (times digit 2))).

Definition k_product_name : str := u "product_name".
Definition k_amount : str := u "amount".
Definition k_incident_date : str := u "incident_date".
Definition k_severity : str := u "severity".

Definition high : str := u "高".
Definition medium : str := u "中".
Definition low : str := u "低".

Definition keywords_high : list str :=
  map u ["紧急"; "立即"; "非常不满"; "极其"; "要求"; "投诉"; "退款";
         "起诉"; "举报"; "丢失"]%string.
Definition keywords_medium : list str :=
  map u ["不满"; "问题"; "失望"; "退换"; "损坏"; "延迟"; "错误"]%string.
Definition keywords_low : list str :=
  map u ["咨询"; "建议"; "希望"; "改进"; "询问"; "请问"]%string.

Definition severity_keywords : dict (list str) :=
  [ (high, keywords_high); (medium, keywords_medium); (low, keywords_low) ].

(** The loop building [product_list]: the non-empty members of a tuple, or
    the item itself when it is not a tuple. *)
Fixpoint product_list (products : list value) : list value :=
  match products with
  | [] => []
  | VTuple t :: ps => map VStr (filter truthy t) ++ product_list ps
  | p :: ps => p :: product_list ps
  end.

Definition extract_product (text : str) (info : dict value) : dict value :=
  let products := findall product_pattern text in
  match products with
  | [] => info
  | _ :: _ =>
      match product_list products with
      | [] => info
      | first :: _ => dict_set info k_product_name first
      end
  end.

(** The inner loop over one tuple: the first non-empty group is parsed and
    stored, then the loop is left. *)
Fixpoint amount_of_tuple (t : list str) (info : dict value)
  : outcome (dict value) :=
  match t with
  | [] => Ret info
  | amount :: t' =>
      if truthy amount
      then bind (float (VStr amount))
                (fun q => Ret (dict_set info k_amount (VFloat q)))
      else amount_of_tuple t' info
  end.

Fixpoint amount_loop (amounts : list value) (info : dict value)
  : outcome (dict value) :=
  match amounts with
  | [] => Ret info
  | amount_match :: rest =>
      bind (match amount_match with
            | VTuple t => amount_of_tuple t info
            | _ => bind (float amount_match)
                        (fun q => Ret (dict_set info k_amount (VFloat q)))
            end)
           (fun info' =>
              if has_key info' k_amount then Ret info'
              else amount_loop rest info')
  end.

(** The amount step; the guard [if amounts:] only spares a loop over the
    empty list. *)
Definition extract_amount (text : str) (info : dict value)
  : outcome (dict value) :=
  amount_loop (findall amount_pattern text) info.

Definition extract_date (text : str) (info : dict value) : dict value :=
  match findall date_pattern text with
  | [] => info
  | first :: _ => dict_set info k_incident_date first
  end.

(** The two nested loops filling [severity_scores]. *)
Definition count_keywords (text : str) (severity : str) (keywords : list str)
  (scores : dict Z) : outcome (dict Z) :=
  for_each keywords
    (fun sc keyword => if contains keyword text then incr sc severity
                       else Ret sc)
    scores.

Definition severity_scores (text : str) : outcome (dict Z) :=
  for_each (items severity_keywords)
    (fun sc kv => count_keywords text (fst kv) (snd kv) sc)
    [(high, 0%Z); (medium, 0%Z); (low, 0%Z)].

Definition extract_severity (text : str) (info : dict value)
  : outcome (dict value) :=
  bind (severity_scores text) (fun scores =>
  bind (max_by_value scores) (fun max_severity =>
  bind (subscript scores max_severity) (fun top =>
  if (0 <? top)%Z
  then Ret (dict_set info k_severity (VStr max_severity))
  else Ret (dict_set info k_severity (VStr medium))))).

(** The method itself.  [None] stands for Python's [None]: [re.findall]
    refuses it with [TypeError] at the first pattern, and nothing in the
    method catches that. *)
Definition extract_key_info (text : option str) : outcome (dict value) :=
  match text with
  | None => Raise TypeError
  | Some t =>
      let info := extract_product t [] in
      bind (extract_amount t info) (fun info =>
      let info := extract_date t info in
      extract_severity t info)
  end.

End Extract.

(** ** [ComplaintClassifier.classify] *)

Module Classify.
Import Py.

Definition unclassified : str := u "未分类".

(** The built-in taxonomy written out by [_load_complaint_categories] when
    no categories file exists. *)
Definition default_categories : dict (list str) :=
  [ (u "物流延迟", map u ["延迟"; "还没到"; "运输时间"; "配送慢"; "物流"; "快递";
                          "发货"; "到达"; "等待"]%string);
    (u "商品损坏", map u ["损坏"; "破损"; "不完整"; "质量问题"; "有缺陷"; "坏了";
                          "不能用"]%string);
    (u "退款问题", map u ["退款"; "退钱"; "不退"; "退换"; "取消订单";
                          "不给退"]%string);
    (u "商品质量", map u ["质量"; "不好"; "差"; "不符合"; "假货"; "不如描述";
                          "不如预期"]%string);
    (u "客服体验", map u ["客服"; "服务"; "态度"; "回复"; "沟通"; "联系不上";
                          "没人理"]%string);
    (u "账户问题", map u ["账户"; "登录"; "密码"; "无法访问"; "注册";
                          "个人信息"]%string);
    (u "促销争议", map u ["优惠券"; "折扣"; "促销"; "活动"; "降价"; "价格";
                          "广告"]%string);
    (u "系统故障", map u ["网站"; "App"; "系统"; "错误"; "故障"; "无法"; "不能";
                          "崩溃"; "加载"]%string) ].

Section Classifier.

(** Collaborators outside the repository: [str.lower], [str.isalpha] and
    nltk's [word_tokenize], which may raise. *)
Variable lower : str -> str.
Variable isalpha : str -> bool.
Variable word_tokenize : str -> outcome (list str).

(** The fields of the object the method reads.  [classifier] is the
    zero-shot pipeline: called with the text and the candidate labels it
    answers the list [result['labels']] or raises. *)
Record ComplaintClassifier : Type := {
  stop_words : list str;
  use_transformer : bool;
  complaint_categories : dict (list str);
  classifier : str -> list str -> outcome (list str)
}.

Definition mem (w : str) (ws : list str) : bool := existsb (str_eqb w) ws.

(** The [try]/[except] around tokenisation; the bare [except] catches
    whatever the tokenizer raises. *)
Definition tokenize (self : ComplaintClassifier) (text : str) : list str :=
  match word_tokenize (lower text) with
  | Ret tokens =>
      filter (fun word => isalpha word && negb (mem word (stop_words self)))
             tokens
  | Raise _ => split (lower text)
  end.

(** [keyword_lower in text.lower()] *)
Definition occurs (text : str) (keyword : str) : bool :=
  contains (lower keyword) (lower text).

(** The nested loops filling [word_counts]. *)
Definition count_category (text : str) (category : str) (keywords : list str)
  (word_counts : dict Z) : outcome (dict Z) :=
  for_each keywords
    (fun wc keyword => if occurs text keyword then incr wc category
                       else Ret wc)
    word_counts.

Definition word_counts (self : ComplaintClassifier) (text : str)
  : outcome (dict Z) :=
  for_each (items (complaint_categories self))
    (fun wc kv => count_category text (fst kv) (snd kv) wc)
    (dict_from_keys (keys (complaint_categories self)) 0%Z).

(** The closing loop: the first category whose count is [max_count];
    [None] when the loop runs out, as the method then returns [None]. *)
Fixpoint first_with (counts : list (str * Z)) (max_count : Z) : option str :=
  match counts with
  | [] => None
  | (category, count) :: rest =>
      if (count =? max_count)%Z then Some category
      else first_with rest max_count
  end.

(** The keyword-matching part of [classify], from the creation of
    [word_counts] to the end of the method. *)
Definition keyword_match (self : ComplaintClassifier) (text : str)
  : outcome (option str) :=
  let tokens := tokenize self text in
  bind (word_counts self text) (fun wc =>
  bind (max (values wc)) (fun max_count =>
  if (max_count =? 0)%Z then Ret (Some unclassified)
  else Ret (first_with (items wc) max_count))).

(** The zero-shot attempt: [result['labels'][0]], [IndexError] on an empty
    list of labels. *)
Definition transformer_label (self : ComplaintClassifier) (text : str)
  : outcome str :=
  bind (classifier self text (keys (complaint_categories self)))
       (fun labels => match labels with
                      | label :: _ => Ret label
                      | [] => Raise IndexError
                      end).

(** The method.  The argument is [None] or a string; the result is a
    category name, or [None] when the method falls off its end. *)
Definition classify (self : ComplaintClassifier) (text : option str)
  : outcome (option str) :=
  match text with
  | None => Ret (Some unclassified)
  | Some t =>
      if negb (truthy t) then Ret (Some unclassified)
      else if use_transformer self then
        match transformer_label self t with
        | Ret label => Ret (Some label)
        | Raise _ => keyword_match self t
        end
      else keyword_match self t
  end.

End Classifier.

End Classify.

(** ** Reference notions the code is compared with *)

Module Spec.
Import Py Re.

(** Number of the keywords of a list that occur in a text, each keyword
    counted once however often it occurs. *)
Definition hits (occurs : str -> bool) (keywords : list str) : Z :=
  Z.of_nat (List.length (filter occurs keywords)).

(** The (case-sensitive) count of one severity bucket. *)
Definition bucket_count (text : str) (keywords : list str) : Z :=
  hits (fun keyword => contains keyword text) keywords.

(** The dictionary of per-category counts, in taxonomy order. *)
Definition counted (occurs : str -> bool) (taxonomy : dict (list str))
  : dict Z :=
  map (fun kv => (fst kv, hits occurs (snd kv))) taxonomy.

(** The common shape of the two counting loops of the module: every keyword
    satisfying the test adds one to the entry of its category. *)
Definition count_one (P : str -> bool) (category : str)
  (keywords : list str) (d : dict Z) : outcome (dict Z) :=
  for_each keywords
    (fun wc keyword => if P keyword then incr wc category else Ret wc) d.

(** The dictionary the counting starts from: every category at 0. *)
Definition zeroed (taxonomy : dict (list str)) : dict Z :=
  map (fun kv => (fst kv, 0%Z)) taxonomy.

(** Declarative reading of a pattern: [matches r w c c'] says that [r]
    matches exactly the text [w], turning the groups [c] into [c']. *)
Inductive matches : re -> str -> caps -> caps -> Prop :=
| MLit a c : matches (Lit a) [a] c c
| MCls (p : char -> bool) x c : p x = true -> matches (Cls p) [x] c c
| MCat r1 r2 w1 w2 c c1 c2 :
    matches r1 w1 c c1 -> matches r2 w2 c1 c2 ->
    matches (Cat r1 r2) (w1 ++ w2) c c2
| MAltL r1 r2 w c c' : matches r1 w c c' -> matches (Alt r1 r2) w c c'
| MAltR r1 r2 w c c' : matches r2 w c c' -> matches (Alt r1 r2) w c c'
| MOptSome r w c c' : matches r w c c' -> matches (Opt r) w c c'
| MOptNone r c : matches (Opt r) [] c c
| MRep (p : char -> bool) lo hi w c :
    forallb p w = true -> lo <= List.length w ->
    (forall h, hi = Some h -> List.length w <= h) ->
    matches (Rep p lo hi) w c c
| MGrp i r w c c' : matches r w c c' -> matches (Grp i r) w c ((i, w) :: c').

(** Every group of [r] only ever captures texts satisfying [P]. *)
Fixpoint groups_in (P : str -> Prop) (r : re) : Prop :=
  match r with
  | Lit _ | Cls _ | Rep _ _ _ => True
  | Cat r1 r2 | Alt r1 r2 => groups_in P r1 /\ groups_in P r2
  | Opt r1 => groups_in P r1
  | Grp _ r1 => (forall w c c', matches r1 w c c' -> P w) /\ groups_in P r1
  end.

(** An unsigned decimal numeral: digits, then possibly a point and two
    digits. *)
Definition decimal_text (w : str) : Prop :=
  exists ip fp,
    ip <> [] /\ forallb isdecimal ip = true /\
    (fp = [] \/ exists f, fp = 46%N :: f /\ forallb isdecimal f = true) /\
    w = ip ++ fp.

(** What a group of the amount pattern may hold. *)
Definition parses (t : str) : Prop :=
  truthy t = true -> exists q, float_str t = Ret q /\ (0 <= q)%Q.

(** What the entry [amount] of the result may hold. *)
Definition amount_ok (info : dict value) : Prop :=
  forall v, dict_get info Extract.k_amount = Some v ->
            exists q, v = VFloat q /\ (0 <= q)%Q.

(** The severity rule in closed form: medium when nothing matched, else
    the bucket with the greatest count, the earlier of high, medium, low
    winning a tie. *)
Definition chosen (h m l : Z) : str :=
  if ((h =? 0) && (m =? 0) && (l =? 0))%Z then Extract.medium
  else if ((m <=? h) && (l <=? h))%Z then Extract.high
  else if (l <=? m)%Z then Extract.medium
  else Extract.low.

(** Boolean test that the names of a list are pairwise distinct. *)
Fixpoint distinct (ks : list str) : bool :=
  match ks with
  | [] => true
  | k :: ks' => negb (existsb (str_eqb k) ks') && distinct ks'
  end.

End Spec.

(** ** Inputs of the documented scenarios *)

Module Scenario.
Import Py Extract Classify.

(** The order text: an order number, a product in double quotes, an amount
    in dollars and an ISO date. *)
Definition order_text : str :=
  u "订单号 ORD-12345 购买 " ++ [quote] ++ u "iPhone 13" ++ [quote]
    ++ u " 花费 $99.99 日期 2024-01-15".

(** A text whose only product match is a bare upper-case token. *)
Definition uppercase_text : str := u "ABC".

(** One keyword of the high bucket and one of the low bucket. *)
Definition urgent_question : str := u "紧急 咨询".

Definition two_categories : dict (list str) :=
  [ (u "物流延迟", map u ["延迟"; "物流"]%string);
    (u "商品损坏", map u ["损坏"; "破损"]%string) ].

Definition late_delivery : str := u "物流延迟太严重了".

(** Two categories sharing their only keyword. *)
Definition shared_keyword : dict (list str) :=
  [ (u "A", [u "退款"]); (u "B", [u "退款"]) ].

(** A classifier without the zero-shot model. *)
Definition keyword_only (taxonomy : dict (list str)) : ComplaintClassifier :=
  {| stop_words := [];
     use_transformer := false;
     complaint_categories := taxonomy;
     classifier := fun _ _ => Raise RuntimeError |}.

(** A classifier whose zero-shot model fails on every call. *)
Definition failing_model (taxonomy : dict (list str)) : ComplaintClassifier :=
  {| stop_words := [];
     use_transformer := true;
     complaint_categories := taxonomy;
     classifier := fun _ _ => Raise RuntimeError |}.

(** A tokenizer whose resources are missing. *)
Definition no_punkt (s : str) : outcome (list str) := Raise LookupError.

Definition letters_only (s : str) : bool :=
  forallb (fun c => ((97 <=? c) && (c <=? 122))%N) s.

End Scenario.

(** ** [EmailProcessor._extract_order_number] *)

Module Mail.
Import Py Re.

(** [ORD-\d{8}] *)
Definition order_pattern : re :=
  cat [Lit 79%N; Lit 82%N; Lit 68%N; Lit 45%N] (times digit 8).

(** [re.search]: the leftmost match, the first one [finditer] yields. *)
Definition search (r : re) (s : str) : option found :=
  match finditer r s with
  | m :: _ => Some m
  | [] => None
  end.

(** [match.group(0) if match else None]; on [None] instead of a string
    [re.search] raises [TypeError]. *)
Definition extract_order_number (text : option str) : outcome (option str) :=
  match text with
  | None => Raise TypeError
  | Some t =>
      match search order_pattern t with
      | Some m => Ret (Some (whole m))
      | None => Ret None
      end
  end.

End Mail.

(** ** [generate_order_number] of the test-data generator *)

Module TestData.
Import Py.

(** [str(n)] for a non-negative integer: its decimal digits, most
    significant first.  [fuel] bounds the number of digits. *)
Fixpoint digits_of (fuel : nat) (n : N) (acc : str) : str :=
  match fuel with
  | O => acc
  | S fuel' =>
      let acc' := (48 + n mod 10)%N :: acc in
      if (n / 10 =? 0)%N then acc' else digits_of fuel' (n / 10)%N acc'
  end.

Definition str_of_int (n : N) : str :=
  digits_of (S (N.to_nat (N.log2 n))) n [].

(** The f-string [ORD-{n}], [n] being the number [random.randint] drew
    between 10000000 and 99999999. *)
Definition generate_order_number (n : N) : str := u "ORD-" ++ str_of_int n.

End TestData.

(** ** The loop body of [process_complaints] *)

Module Tasks.
Import Py Extract Classify.

(** A Python object of the processed record: [None] or a value. *)
Definition obj := option value.

Definition k_content : str := u "content".
Definition k_complaint_type : str := u "complaint_type".
Definition k_sentiment_score : str := u "sentiment_score".
Definition k_sentiment_label : str := u "sentiment_label".

(** [**d] inside a dictionary display: the items of [d] are assigned in
    order to the dictionary under construction. *)
Definition unpack {V} (acc : dict V) (d : dict V) : dict V :=
  fold_left (fun a kv => dict_set a (fst kv) (snd kv)) d acc.

Section Task.
Variable lower : str -> str.
Variable isalpha : str -> bool.
Variable word_tokenize : str -> outcome (list str).

(** [SentimentAnalyzer.analyze]: its body catches every exception and
    answers a score and a label. *)
Variable analyze : option str -> Q * str.

(** One turn of the loop: classify, score, extract, merge.  The fields of a
    complaint are strings or [None]. *)
Definition process_one (self : ComplaintClassifier)
  (complaint : dict (option str)) : outcome (dict obj) :=
  bind (subscript complaint k_content) (fun content =>
  bind (classify lower isalpha word_tokenize self content)
       (fun complaint_type =>
  bind (subscript complaint k_content) (fun content' =>
  let (sentiment_score, sentiment_label) := analyze content' in
  bind (subscript complaint k_content) (fun content'' =>
  bind (extract_key_info content'') (fun extracted_info =>
  let merged :=
    unpack [] (map (fun kv => (fst kv, option_map VStr (snd kv))) complaint) in
  let merged := dict_set merged k_complaint_type
                  (option_map VStr complaint_type) in
  let merged := dict_set merged k_sentiment_score
                  (Some (VFloat sentiment_score)) in
  let merged := dict_set merged k_sentiment_label
                  (Some (VStr sentiment_label)) in
  Ret (unpack merged
         (map (fun kv => (fst kv, Some (snd kv))) extracted_info))))))).

(** The loop: the records are appended in order; the first exception ends
    the task. *)
Definition process_all (self : ComplaintClassifier)
  (complaints : list (dict (option str))) : outcome (list (dict obj)) :=
  for_each complaints
    (fun processed complaint =>
       bind (process_one self complaint)
            (fun record => Ret (processed ++ [record])))
    [].

End Task.
End Tasks.

(** ** Further reference notions *)

Module Shape.
Import Py Re Extract.

(** [w] occurs in [s] as a contiguous piece. *)
Definition piece (w s : str) : Prop := exists a b, s = a ++ w ++ b.

(** A text between two copies of the delimiter [q]. *)
Definition quoted (q : char) (name : str) : str := [q] ++ name ++ [q].

(** The keys [extract_key_info] may write. *)
Definition info_keys : list str :=
  [k_product_name; k_amount; k_incident_date; k_severity].

(** The value of an integer numeral, as [float] reads it. *)
Definition integer_value (ds : list N) : Q := inject_Z (Z.of_N (numeral ds)).

(** The three kinds of item [findall] can answer for the product pattern
    on [text]: a double-quoted name in the first group, a single-quoted name
    in the second, or two empty groups for an upper-case run. *)
Definition product_item (text : str) (v : value) : Prop :=
  (exists name, v = VTuple [name; []] /\ name <> [] /\
                ~ In quote name /\ piece (quoted quote name) text) \/
  (exists name, v = VTuple [[]; name] /\ name <> [] /\
                ~ In apostrophe name /\ piece (quoted apostrophe name) text) \/
  v = VTuple [[]; []].

(** A product name as the method can store it: the text between two double
    quotes or two apostrophes of the input. *)
Definition product_value (text : str) (v : value) : Prop :=
  exists q name, v = VStr name /\ name <> [] /\
                 (q = quote \/ q = apostrophe) /\ ~ In q name /\
                 piece (quoted q name) text.


(** A text that does not go on with a digit. *)
Definition stops_digits (r : str) : Prop :=
  match r with
  | [] => True
  | c :: _ => isdecimal c = false
  end.

(** A date as the method can store it. *)
Definition date_char (c : char) : bool := isdecimal c || sep c.

Definition date_value (text : str) (v : value) : Prop :=
  exists d, v = VStr d /\ piece d text /\
            6 <= List.length d <= 10 /\ forallb date_char d = true /\
            (In hyphen d \/ In slash d).

End Shape.

(** ** Sample inputs for the processing loop *)

Module Samples.
Import Py Extract Classify Scenario Tasks.

(** A sentiment analyzer that finds every text neutral. *)
Definition neutral (content : option str) : Q * str := (0%Q, u "中性").

(** A complaint as the mail reader or the test-data generator builds it. *)
Definition sample_complaint : dict (option str) :=
  [ (u "id", Some (u "TEST1"));
    (u "sender", Some (u "zhang123@qq.com"));
    (u "content", Some late_delivery);
    (u "order_number", None) ].

(** A complaint whose content could not be read. *)
Definition unread_complaint : dict (option str) :=
  [ (u "id", Some (u "TEST2")); (u "content", None) ].

(** The record of the order text after extraction. *)
Definition order_info : dict value :=
  [ (k_product_name, VStr (u "iPhone 13"));
    (k_amount, VFloat (9999 # 100));
    (k_incident_date, VStr (u "2024-01-15"));
    (k_severity, VStr medium) ].

End Samples.

(** ** Facts about the Python model *)

Module PyFacts.
Import Py.

Lemma str_eqb_eq (a b : str) : str_eqb a b = true <-> a = b.
Proof.
  revert b; induction a as [|x a IH]; intros [|y b]; simpl;
    try (split; [discriminate | congruence]); try tauto.
  rewrite andb_true_iff, N.eqb_eq, IH. split.
  - intros [-> ->]; reflexivity.
  - intros H; inversion H; auto.
Qed.

Lemma str_eqb_refl (a : str) : str_eqb a a = true.
Proof. apply str_eqb_eq; reflexivity. Qed.

Lemma str_eqb_neq (a b : str) : a <> b -> str_eqb a b = false.
Proof.
  intros H. destruct (str_eqb a b) eqn:E; [|reflexivity].
  apply str_eqb_eq in E. contradiction.
Qed.

Lemma startswith_refl (s : str) : startswith s s = true.
Proof. induction s; simpl; [|rewrite N.eqb_refl]; auto. Qed.

Lemma contains_refl (s : str) : contains s s = true.
Proof. destruct s; simpl; [reflexivity|]. rewrite N.eqb_refl, startswith_refl. reflexivity. Qed.

Section Dict.
Context {V : Type}.
Implicit Types (d : dict V) (k : str) (v : V).

Lemma get_set_same d k v : dict_get (dict_set d k v) k = Some v.
Proof.
  induction d as [|[k' v'] d IH]; simpl.
  - rewrite str_eqb_refl; reflexivity.
  - destruct (str_eqb k k') eqn:E; simpl; rewrite E; auto.
Qed.

Lemma get_set_other d k k' v :
  k' <> k -> dict_get (dict_set d k v) k' = dict_get d k'.
Proof.
  intros Hne. induction d as [|[k0 v0] d IH]; simpl.
  - rewrite (str_eqb_neq Hne); reflexivity.
  - destruct (str_eqb k k0) eqn:E; simpl.
    + apply str_eqb_eq in E; subst k0.
      rewrite (str_eqb_neq Hne); reflexivity.
    + rewrite IH; reflexivity.
Qed.

Lemma set_set d k v v' : dict_set (dict_set d k v) k v' = dict_set d k v'.
Proof.
  induction d as [|[k0 v0] d IH]; simpl.
  - rewrite str_eqb_refl; reflexivity.
  - destruct (str_eqb k k0) eqn:E; simpl; rewrite E; [reflexivity|].
    rewrite IH; reflexivity.
Qed.

Lemma set_get d k v : dict_get d k = Some v -> dict_set d k v = d.
Proof.
  induction d as [|[k0 v0] d IH]; simpl; [discriminate|].
  destruct (str_eqb k k0) eqn:E.
  - intros [= ->]; reflexivity.
  - intros H; rewrite (IH H); reflexivity.
Qed.

Lemma get_app_fresh (pre post : dict V) k :
  ~ In k (keys pre) -> dict_get (pre ++ post) k = dict_get post k.
Proof.
  induction pre as [|[k0 v0] pre IH]; simpl; [reflexivity|].
  intros H. rewrite str_eqb_neq by (intros ->; apply H; auto).
  apply IH. intros Hin; apply H; auto.
Qed.

Lemma set_app_fresh (pre post : dict V) k v :
  ~ In k (keys pre) -> dict_set (pre ++ post) k v = pre ++ dict_set post k v.
Proof.
  induction pre as [|[k0 v0] pre IH]; simpl; [reflexivity|].
  intros H. rewrite str_eqb_neq by (intros ->; apply H; auto).
  rewrite IH; [reflexivity|]. intros Hin; apply H; auto.
Qed.

Lemma set_absent d k v : ~ In k (keys d) -> dict_set d k v = d ++ [(k, v)].
Proof.
  induction d as [|[k0 v0] d IH]; simpl; [reflexivity|].
  intros H. rewrite str_eqb_neq by (intros ->; apply H; auto).
  rewrite IH; [reflexivity|]. intros Hin; apply H; auto.
Qed.

(** The comprehension over distinct keys lists them in order. *)
Lemma from_keys_app (ks : list str) v d :
  NoDup (keys d ++ ks) ->
  fold_left (fun d k => dict_set d k v) ks d = d ++ map (fun k => (k, v)) ks.
Proof.
  revert d; induction ks as [|k ks IH]; intros d Hnd; simpl.
  - rewrite app_nil_r; reflexivity.
  - assert (Hk : ~ In k (keys d)).
    { apply NoDup_remove_2 in Hnd. intros Hin; apply Hnd.
      apply in_or_app; auto. }
    rewrite set_absent by exact Hk. rewrite IH.
    + rewrite <- app_assoc; reflexivity.
    + unfold keys in *. rewrite map_app, <- app_assoc. exact Hnd.
Qed.

Lemma dict_from_keys_nodup (ks : list str) v :
  NoDup ks -> dict_from_keys ks v = map (fun k => (k, v)) ks.
Proof. intros H. unfold dict_from_keys. rewrite from_keys_app; auto. Qed.

End Dict.

(** [max] returns the greatest element, and that element is in the list. *)
Lemma max_from_ge (b : Z) (xs : list Z) :
  (b <= max_from (fun z => z) b xs)%Z /\
  Forall (fun x => (x <= max_from (fun z => z) b xs)%Z) xs.
Proof.
  revert b; induction xs as [|x xs IH]; intros b; simpl.
  - split; [lia | constructor].
  - destruct (Z.ltb_spec b x) as [Hlt|Hge].
    + destruct (IH x) as [H1 H2]. split; [lia|]. constructor; auto.
    + destruct (IH b) as [H1 H2]. split; [lia|]. constructor; auto. lia.
Qed.

Lemma max_from_in (b : Z) (xs : list Z) :
  In (max_from (fun z => z) b xs) (b :: xs).
Proof.
  revert b; induction xs as [|x xs IH]; intros b; simpl; [auto|].
  destruct (Z.ltb_spec b x); destruct (IH x), (IH b); simpl in *; auto.
Qed.

Lemma max_spec (xs : list Z) (m : Z) :
  In m xs -> Forall (fun x => (x <= m)%Z) xs -> max xs = Ret m.
Proof.
  intros Hin Hall. destruct xs as [|x xs]; [destruct Hin|].
  unfold max, max_key. f_equal.
  destruct (max_from_ge x xs) as [H1 H2].
  pose proof (max_from_in x xs) as H3.
  rewrite Forall_forall in Hall, H2.
  apply Z.le_antisymm.
  - apply Hall. exact H3.
  - destruct Hin as [<-|Hin]; auto.
Qed.

Lemma max_nonempty (xs : list Z) :
  xs <> [] -> exists m, max xs = Ret m /\ In m xs /\ Forall (fun x => (x <= m)%Z) xs.
Proof.
  destruct xs as [|x xs]; [congruence|]. intros _.
  exists (max_from (fun z => z) x xs). split; [reflexivity|].
  split; [apply max_from_in|].
  destruct (max_from_ge x xs). constructor; auto.
Qed.

End PyFacts.

(** ** The counting loops *)

Module CountFacts.
Import Py Spec PyFacts.

Section Counting.
Variable P : str -> bool.

Lemma hits_cons (kw : str) (kws : list str) :
  hits P (kw :: kws) = ((if P kw then 1 else 0) + hits P kws)%Z.
Proof.
  unfold hits. cbn [filter]. destruct (P kw); cbn [List.length].
  - rewrite Nat2Z.inj_succ. lia.
  - lia.
Qed.

Lemma hits_range (kws : list str) :
  (0 <= hits P kws <= Z.of_nat (List.length kws))%Z.
Proof.
  unfold hits. pose proof (filter_length_le P kws) as H.
  split; [lia | apply Nat2Z.inj_le; exact H].
Qed.

(** The inner loop adds to the entry of its category the number of
    keywords that occur, and touches nothing else. *)
Lemma count_one_spec (category : str) (kws : list str) (d : dict Z) (n : Z) :
  dict_get d category = Some n ->
  count_one P category kws d = Ret (dict_set d category (n + hits P kws)%Z).
Proof.
  unfold count_one.
  revert d n; induction kws as [|kw kws IH]; intros d n Hget;
    cbn [for_each].
  - unfold hits; simpl. rewrite Z.add_0_r, set_get; auto.
  - rewrite hits_cons. destruct (P kw).
    + unfold incr, subscript. rewrite Hget; cbn [bind].
      rewrite (IH _ (n + 1)%Z) by apply get_set_same.
      rewrite set_set. rewrite Z.add_assoc. reflexivity.
    + cbn [bind]. rewrite (IH _ n Hget). reflexivity.
Qed.

Lemma keys_zeroed (taxonomy : dict (list str)) :
  zeroed taxonomy = map (fun k => (k, 0%Z)) (keys taxonomy).
Proof. unfold zeroed, keys. rewrite map_map. reflexivity. Qed.

(** The outer loop turns the zeroed dictionary into the dictionary of
    counts, category by category, keeping the taxonomy order. *)
Lemma count_all_spec (taxonomy : dict (list str)) (pre : dict Z) :
  NoDup (keys pre ++ keys taxonomy) ->
  for_each taxonomy (fun wc kv => count_one P (fst kv) (snd kv) wc)
    (pre ++ zeroed taxonomy)
  = Ret (pre ++ counted P taxonomy).
Proof.
  revert pre; induction taxonomy as [|[c kws] tax IH]; intros pre Hnd.
  - reflexivity.
  - cbn [for_each fst snd zeroed counted map].
    assert (Hc : ~ In c (keys pre)).
    { apply NoDup_remove_2 in Hnd. intros Hin; apply Hnd.
      apply in_or_app; auto. }
    rewrite (@count_one_spec c kws _ 0%Z).
    2:{ rewrite get_app_fresh by exact Hc. simpl.
        rewrite str_eqb_refl; reflexivity. }
    rewrite set_app_fresh by exact Hc. simpl. rewrite str_eqb_refl.
    cbn [bind].
    change ((c, hits P kws) :: map (fun kv => (fst kv, 0%Z)) tax)
      with ([(c, hits P kws)] ++ zeroed tax).
    rewrite app_assoc, IH.
    + rewrite <- app_assoc. reflexivity.
    + unfold keys in *. rewrite map_app, <- app_assoc. exact Hnd.
Qed.

Lemma get_counted (taxonomy : dict (list str)) (c : str) (kws : list str) :
  NoDup (keys taxonomy) -> In (c, kws) taxonomy ->
  dict_get (counted P taxonomy) c = Some (hits P kws).
Proof.
  induction taxonomy as [|[c0 k0] tax IH]; simpl; [tauto|].
  intros Hnd [Heq|Hin].
  - inversion Heq; subst. rewrite str_eqb_refl; reflexivity.
  - inversion Hnd as [|? ? Hnot Hnd']; subst.
    rewrite str_eqb_neq.
    + apply IH; auto.
    + intros ->. apply Hnot. change c0 with (fst (c0, kws)).
      apply in_map; exact Hin.
Qed.

End Counting.
End CountFacts.

(** ** Facts about the keyword path of [classify] *)

Module ClassifyFacts.
Import Py Spec PyFacts CountFacts Classify.

Section KeywordPath.
Variable lower : str -> str.
Variable isalpha : str -> bool.
Variable word_tokenize : str -> outcome (list str).
Variable self : ComplaintClassifier.
Variable text : str.

(** After the two loops [word_counts] holds, in taxonomy order, the number
    of matching keywords of every category. *)
Lemma word_counts_spec :
  NoDup (keys (complaint_categories self)) ->
  word_counts lower self text =
  Ret (counted (occurs lower text) (complaint_categories self)).
Proof.
  intros Hnd. unfold word_counts.
  rewrite dict_from_keys_nodup by exact Hnd.
  rewrite <- keys_zeroed.
  exact (@count_all_spec (occurs lower text) (complaint_categories self)
           [] Hnd).
Qed.

Lemma first_with_skip (pre post : list (str * Z)) (m : Z) :
  Forall (fun kv => snd kv <> m) pre ->
  first_with (pre ++ post) m = first_with post m.
Proof.
  induction 1 as [|[c n] pre Hne _ IH]; simpl; [reflexivity|].
  simpl in Hne. destruct (Z.eqb_spec n m); [contradiction | exact IH].
Qed.

Lemma first_with_found (counts : list (str * Z)) (m : Z) :
  In m (values counts) ->
  exists c, first_with counts m = Some c /\ In c (keys counts).
Proof.
  induction counts as [|[c n] counts IH]; simpl; [tauto|].
  intros Hin. destruct (Z.eqb_spec n m) as [_|Hne].
  - exists c; auto.
  - destruct Hin as [Heq|Hin]; [contradiction|].
    destruct (IH Hin) as [c' [H1 H2]]. exists c'; auto.
Qed.

(** The category answered by the keyword path: when the taxonomy splits as
    [pre], then [category], then [post], with every earlier count strictly
    smaller and every later count no greater, the answer is [category],
    unless its count is 0, in which case the sentinel is answered. *)
Lemma keyword_match_first_max
  (pre post : dict (list str)) (category : str) (keywords : list str) :
  NoDup (keys (complaint_categories self)) ->
  complaint_categories self = pre ++ (category, keywords) :: post ->
  Forall (fun kv => (hits (occurs lower text) (snd kv)
                     < hits (occurs lower text) keywords)%Z) pre ->
  Forall (fun kv => (hits (occurs lower text) (snd kv)
                     <= hits (occurs lower text) keywords)%Z) post ->
  keyword_match lower isalpha word_tokenize self text =
  Ret (Some (if (hits (occurs lower text) keywords =? 0)%Z
             then unclassified else category)).
Proof.
  intros Hnd Hsplit Hpre Hpost. unfold keyword_match.
  rewrite (word_counts_spec Hnd). cbn [bind].
  set (m := hits (occurs lower text) keywords).
  assert (Hmax : max (values (counted (occurs lower text)
                                (complaint_categories self))) = Ret m).
  { apply max_spec.
    - rewrite Hsplit. unfold values, counted. rewrite !map_app. simpl.
      apply in_or_app; right; left; reflexivity.
    - rewrite Hsplit. unfold values, counted. rewrite !map_map.
      apply Forall_map. apply Forall_app; split.
      + eapply Forall_impl; [|exact Hpre]. simpl; intros; lia.
      + constructor; [simpl; lia|].
        eapply Forall_impl; [|exact Hpost]. simpl; intros; lia. }
  rewrite Hmax. cbn [bind].
  destruct (Z.eqb_spec m 0) as [_|Hne]; [reflexivity|].
  do 2 f_equal. unfold items. rewrite Hsplit. unfold counted.
  rewrite map_app. rewrite first_with_skip.
  - simpl. fold m. rewrite Z.eqb_refl. reflexivity.
  - apply Forall_map. eapply Forall_impl; [|exact Hpre].
    simpl; intros kv H. fold m in H. lia.
Qed.

(** On a non-empty taxonomy the keyword path always answers a name. *)
Lemma keyword_match_total :
  NoDup (keys (complaint_categories self)) ->
  complaint_categories self <> [] ->
  exists c, keyword_match lower isalpha word_tokenize self text = Ret (Some c).
Proof.
  intros Hnd Hne. unfold keyword_match.
  rewrite (word_counts_spec Hnd). cbn [bind].
  destruct (@max_nonempty (values (counted (occurs lower text)
                                     (complaint_categories self))))
    as [m [Hm [Hin _]]].
  { unfold values, counted.
    destruct (complaint_categories self); [congruence | discriminate]. }
  rewrite Hm. cbn [bind].
  destruct (m =? 0)%Z; [eexists; reflexivity|].
  destruct (first_with_found _ _ Hin) as [c [Hc _]].
  exists c. unfold items. rewrite Hc. reflexivity.
Qed.

End KeywordPath.

End ClassifyFacts.

(** ** Soundness of the matcher *)

Module ReFacts.
Import Py Re Spec.

Lemma firstn_consumed (w s : str) :
  firstn (List.length (w ++ s) - List.length s) (w ++ s) = w.
Proof.
  rewrite length_app, Nat.add_sub.
  rewrite firstn_app, Nat.sub_diag, firstn_all. simpl.
  apply app_nil_r.
Qed.

(** A successful repetition consumed a run of characters of the class
    whose length respects both bounds. *)
Lemma rep_sound {R} (p : char -> bool) (s : str) :
  forall lo hi (k : str -> option R) x,
    rep p lo hi s k = Some x ->
    exists w s',
      s = w ++ s' /\ forallb p w = true /\ lo <= List.length w /\
      (forall h, hi = Some h -> List.length w <= h) /\ k s' = Some x.
Proof.
  assert (Hstop : forall s0 lo hi (k : str -> option R) x,
             match lo with O => k s0 | S _ => None end = Some x ->
             exists w s',
               s0 = w ++ s' /\ forallb p w = true /\ lo <= List.length w /\
               (forall h, hi = Some h -> List.length w <= h) /\ k s' = Some x).
  { intros s0 lo hi k x H. destruct lo; [|discriminate].
    exists [], s0. repeat split; auto. simpl; intros; lia. }
  induction s as [|c s IH]; intros lo hi k x H; cbn [rep] in H.
  - apply Hstop; exact H.
  - destruct (p c && below hi) eqn:E; [|apply Hstop; exact H].
    apply andb_true_iff in E. destruct E as [Hp Hb].
    destruct (rep p (Nat.pred lo) (dec hi) s k) as [y|] eqn:Er;
      [|apply Hstop; exact H].
    inversion H; subst y; clear H.
    destruct (IH _ _ _ _ Er) as (w & s' & -> & Hall & Hlo & Hhi & Hk).
    exists (c :: w), s'. simpl. rewrite Hp, Hall.
    repeat split; auto; [lia|].
    intros h ->. simpl in Hb, Hhi.
    destruct h; [discriminate|]. specialize (Hhi h eq_refl). simpl in Hhi. lia.
Qed.

(** Whatever the matcher accepts is a match in the declarative sense, and
    the continuation was run on the text left over. *)
Lemma run_sound {R} (r : re) :
  forall (s : str) (c : caps) (k : str -> caps -> option R) x,
    run r s c k = Some x ->
    exists w s' c', s = w ++ s' /\ matches r w c c' /\ k s' c' = Some x.
Proof.
  induction r as [a|p|r1 IH1 r2 IH2|r1 IH1 r2 IH2|r1 IH1|p lo hi|i r1 IH1];
    intros s c k x H; cbn [run] in H.
  - destruct s as [|y s]; [discriminate|].
    destruct (N.eqb_spec y a) as [->|]; [|discriminate].
    exists [a], s, c. repeat split; auto. constructor.
  - destruct s as [|y s]; [discriminate|].
    destruct (p y) eqn:E; [|discriminate].
    exists [y], s, c. repeat split; auto. constructor; exact E.
  - destruct (IH1 _ _ _ _ H) as (w1 & s1 & c1 & -> & M1 & H1).
    destruct (IH2 _ _ _ _ H1) as (w2 & s2 & c2 & -> & M2 & H2).
    exists (w1 ++ w2), s2, c2. rewrite app_assoc.
    repeat split; auto. econstructor; eauto.
  - destruct (run r1 s c k) as [y|] eqn:E.
    + inversion H; subst y.
      destruct (IH1 _ _ _ _ E) as (w & s' & c' & -> & M & Hk).
      exists w, s', c'. repeat split; auto. apply MAltL; exact M.
    + destruct (IH2 _ _ _ _ H) as (w & s' & c' & -> & M & Hk).
      exists w, s', c'. repeat split; auto. apply MAltR; exact M.
  - destruct (run r1 s c k) as [y|] eqn:E.
    + inversion H; subst y.
      destruct (IH1 _ _ _ _ E) as (w & s' & c' & -> & M & Hk).
      exists w, s', c'. repeat split; auto. apply MOptSome; exact M.
    + exists [], s, c. repeat split; auto. apply MOptNone.
  - destruct (rep_sound _ _ _ _ _ H) as (w & s' & -> & Hall & Hlo & Hhi & Hk).
    exists w, s', c. repeat split; auto. constructor; auto.
  - destruct (IH1 _ _ _ _ H) as (w & s' & c' & -> & M & Hk).
    rewrite firstn_consumed in Hk.
    exists w, s', ((i, w) :: c'). repeat split; auto. constructor; exact M.
Qed.

Lemma match_at_sound (r : re) (s rest : str) (c : caps) :
  match_at r s = Some (rest, c) ->
  exists w, s = w ++ rest /\ matches r w [] c.
Proof.
  intros H. destruct (run_sound _ _ _ _ H) as (w & s' & c' & -> & M & Hk).
  inversion Hk; subst. exists w; auto.
Qed.

(** Groups only ever hold texts matched by the pattern inside the group. *)
Lemma matches_groups (P : str -> Prop) (r : re) (w : str) (c c' : caps) :
  matches r w c c' -> groups_in P r ->
  Forall (fun g => P (snd g)) c -> Forall (fun g => P (snd g)) c'.
Proof.
  induction 1; simpl; intros HG Hc; auto.
  - destruct HG; auto.
  - destruct HG; auto.
  - destruct HG; auto.
  - destruct HG as [HP HG]. constructor; eauto.
Qed.

Lemma group_text_ok (P : str -> Prop) (c : caps) (i : nat) :
  Forall (fun g => P (snd g)) c -> P [] -> P (group_text c i).
Proof.
  intros Hc Hnil. unfold group_text.
  induction Hc as [|[j t] c Ht _ IH]; simpl; [exact Hnil|].
  destruct (Nat.eqb i j); [exact Ht | exact IH].
Qed.

(** Every match reported by the scan comes from one anchored attempt. *)
Lemma scan_sound (r : re) (s : str) :
  forall skip,
    Forall (fun m => exists w, matches r w [] (groups m)) (scan r s skip).
Proof.
  induction s as [|x s IH]; intros skip; cbn [scan].
  - destruct skip; [|constructor].
    destruct (match_at r []) as [[rest c]|] eqn:E; [|constructor].
    constructor; [|constructor].
    destruct (match_at_sound _ _ E) as (w & _ & M). exists w; exact M.
  - destruct skip as [|n]; [|apply IH].
    destruct (match_at r (x :: s)) as [[rest c]|] eqn:E; [|apply IH].
    constructor; [|apply IH].
    destruct (match_at_sound _ _ E) as (w & _ & M). exists w; exact M.
Qed.

Lemma finditer_groups (P : str -> Prop) (r : re) (s : str) :
  groups_in P r ->
  Forall (fun m => Forall (fun g => P (snd g)) (groups m)) (finditer r s).
Proof.
  intros HG. unfold finditer.
  eapply Forall_impl; [|apply scan_sound].
  intros m [w M]. eapply matches_groups; eauto.
Qed.

End ReFacts.

(** ** Facts about [float] *)

Module FloatFacts.
Import Py Spec.

Lemma digits_all (s : str) :
  forallb isdecimal s = true -> exists ds, digits s = Some ds.
Proof.
  induction s as [|c s IH]; simpl; [eexists; reflexivity|].
  unfold isdecimal at 1. intros H. apply andb_true_iff in H.
  destruct H as [Hc Hs]. destruct (to_decimal c); [|discriminate].
  destruct (IH Hs) as [ds ->]. eexists; reflexivity.
Qed.

Lemma span_digits_app (ip fp : str) :
  forallb isdecimal ip = true ->
  match fp with [] => True | c :: _ => isdecimal c = false end ->
  span_digits (ip ++ fp) = (ip, fp).
Proof.
  intros Hip Hfp. induction ip as [|c ip IH]; simpl in *.
  - destruct fp as [|c fp]; [reflexivity|]. simpl. rewrite Hfp. reflexivity.
  - apply andb_true_iff in Hip. destruct Hip as [Hc Hip].
    rewrite Hc, (IH Hip). reflexivity.
Qed.

Lemma decimal_not_sign (c : char) :
  isdecimal c = true -> (c =? 45)%N = false /\ (c =? 43)%N = false.
Proof.
  intros H. split.
  - destruct (N.eqb_spec c 45); [subst; vm_compute in H; discriminate | reflexivity].
  - destruct (N.eqb_spec c 43); [subst; vm_compute in H; discriminate | reflexivity].
Qed.

Lemma Qred_nonneg (n : N) (p : positive) : (0 <= Qred (Z.of_N n # p))%Q.
Proof.
  rewrite Qred_correct. unfold Qle; simpl. lia.
Qed.

(** [float] accepts every unsigned decimal numeral and answers a
    non-negative number. *)
Lemma float_decimal_text (w : str) :
  decimal_text w -> exists q, float_str w = Ret q /\ (0 <= q)%Q.
Proof.
  intros (ip & fp & Hne & Hip & Hfp & ->).
  destruct ip as [|c ip]; [congruence|].
  assert (Hc : isdecimal c = true).
  { simpl in Hip. apply andb_true_iff in Hip. tauto. }
  destruct (@decimal_not_sign c Hc) as [H45 H43].
  unfold float_str. cbn [app]. rewrite H45, H43.
  change (c :: ip ++ fp) with ((c :: ip) ++ fp).
  unfold unsigned_float.
  destruct (@digits_all _ Hip) as [di Hdi].
  destruct Hfp as [->|(f & -> & Hf)].
  - rewrite span_digits_app by auto. rewrite Hdi.
    eexists; split; [reflexivity|]. unfold Qle; simpl. lia.
  - rewrite span_digits_app by (auto; reflexivity).
    rewrite N.eqb_refl, Hdi.
    destruct (@digits_all _ Hf) as [df ->]. cbn [app].
    eexists; split; [reflexivity|]. apply Qred_nonneg.
Qed.

End FloatFacts.

(** ** Facts about [extract_key_info] *)

Module ExtractFacts.
Import Py Re Spec PyFacts CountFacts ReFacts FloatFacts Extract.

Lemma decimal_shape (w : str) (c c' : caps) :
  matches decimal w c c' -> decimal_text w.
Proof.
  unfold decimal, plus, times. intros H.
  inversion H as [| |r1 r2 w1 w2 c0 c1 c2 H1 H2| | | | | |]; subst.
  inversion H1 as [| | | | | | |p lo hi w0 c0 Hall Hlo Hhi|]; subst.
  exists w1. inversion H2 as [| | | |
                              |r w0 c0 c3 H3|r c0| |]; subst.
  - inversion H3 as [| |r1 r2 w3 w4 c0 c4 c5 H4 H5| | | | | |]; subst.
    inversion H4; subst.
    inversion H5 as [| | | | | | |p lo hi w0 c0 Hall' Hlo' Hhi'|]; subst.
    exists ([point] ++ w4). repeat split; auto.
    + intros ->; simpl in Hlo; lia.
    + right. exists w4. split; auto.
  - exists []. repeat split; auto.
    intros ->; simpl in Hlo; lia.
Qed.

Lemma amount_groups : groups_in parses amount_pattern.
Proof.
  assert (H : forall w c c', matches decimal w c c' -> parses w).
  { intros w c c' M _. apply float_decimal_text.
    eapply decimal_shape; exact M. }
  unfold amount_pattern; simpl. repeat split; auto.
Qed.

Lemma parses_nil : parses [].
Proof. intros H; discriminate. Qed.

(** [findall] with the amount pattern answers triples whose members are
    empty or unsigned decimal numerals. *)
Lemma findall_amount (text : str) :
  Forall (fun v => exists t, v = VTuple t /\ Forall parses t)
         (findall amount_pattern text).
Proof.
  unfold findall. apply Forall_map.
  eapply Forall_impl;
    [|apply (@finditer_groups parses amount_pattern text amount_groups)].
  intros m Hm. eexists; split; [reflexivity|].
  apply Forall_map. apply Forall_forall. intros i _.
  apply group_text_ok; [exact Hm | exact parses_nil].
Qed.

Lemma amount_ok_set (info : dict value) (q : Q) :
  (0 <= q)%Q -> amount_ok (dict_set info k_amount (VFloat q)).
Proof.
  intros Hq v Hv. rewrite get_set_same in Hv. inversion Hv; subst.
  exists q; auto.
Qed.

Lemma amount_of_tuple_ok (t : list str) (info : dict value) :
  Forall parses t -> amount_ok info ->
  exists info', amount_of_tuple t info = Ret info' /\ amount_ok info' /\
                forall k, k <> k_amount -> dict_get info' k = dict_get info k.
Proof.
  induction 1 as [|a t Ha _ IH]; intros Hok; cbn [amount_of_tuple].
  - exists info; auto.
  - destruct (truthy a) eqn:E; [|apply IH; exact Hok].
    destruct (Ha E) as (q & Hq & Hpos). cbn [float]. rewrite Hq. cbn [bind].
    eexists; split; [reflexivity|]. split; [apply amount_ok_set; exact Hpos|].
    intros k Hk. apply get_set_other; exact Hk.
Qed.

Lemma amount_loop_ok (amounts : list value) :
  Forall (fun v => exists t, v = VTuple t /\ Forall parses t) amounts ->
  forall info, amount_ok info ->
  exists info', amount_loop amounts info = Ret info' /\ amount_ok info' /\
                forall k, k <> k_amount -> dict_get info' k = dict_get info k.
Proof.
  induction 1 as [|v amounts (t & -> & Ht) _ IH]; intros info Hok;
    cbn [amount_loop].
  - exists info; auto.
  - destruct (@amount_of_tuple_ok t info Ht Hok)
      as (info1 & -> & Hok1 & Hsame1).
    cbn [bind]. destruct (has_key info1 k_amount).
    + exists info1; auto.
    + destruct (IH _ Hok1) as (info2 & -> & Hok2 & Hsame2).
      exists info2. repeat split; auto.
      intros k Hk. rewrite Hsame2, Hsame1; auto.
Qed.

(** The amount step never raises. *)
Lemma extract_amount_ok (text : str) (info : dict value) :
  amount_ok info ->
  exists info', extract_amount text info = Ret info' /\ amount_ok info' /\
                forall k, k <> k_amount -> dict_get info' k = dict_get info k.
Proof. apply amount_loop_ok, findall_amount. Qed.

Lemma key_product_amount : k_amount <> k_product_name.
Proof. vm_compute; discriminate. Qed.

Lemma key_date_amount : k_amount <> k_incident_date.
Proof. vm_compute; discriminate. Qed.

Lemma key_severity_amount : k_amount <> k_severity.
Proof. vm_compute; discriminate. Qed.

Lemma extract_product_amount (text : str) :
  dict_get (extract_product text []) k_amount = None.
Proof.
  unfold extract_product.
  destruct (findall product_pattern text); [reflexivity|].
  destruct (product_list (v :: l)); [reflexivity|].
  rewrite get_set_other by exact key_product_amount. reflexivity.
Qed.

Lemma extract_date_other (text : str) (info : dict value) (k : str) :
  k <> k_incident_date ->
  dict_get (extract_date text info) k = dict_get info k.
Proof.
  intros Hk. unfold extract_date.
  destruct (findall date_pattern text); [reflexivity|].
  apply get_set_other; exact Hk.
Qed.

(** The scores after the two loops: the count of each bucket, in the order
    high, medium, low. *)
Lemma severity_scores_spec (text : str) :
  severity_scores text =
  Ret [ (high, bucket_count text keywords_high);
        (medium, bucket_count text keywords_medium);
        (low, bucket_count text keywords_low) ].
Proof.
  assert (Hnd : NoDup (keys severity_keywords)).
  { repeat constructor; simpl; intros H;
      repeat (destruct H as [H|H]; [vm_compute in H; discriminate|]); exact H. }
  exact (@count_all_spec (fun keyword => contains keyword text)
           severity_keywords [] Hnd).
Qed.

Lemma choose_from_scores (h m l : Z) (info : dict value) :
  (0 <= h)%Z -> (0 <= m)%Z -> (0 <= l)%Z ->
  let scores := [(high, h); (medium, m); (low, l)] in
  bind (max_by_value scores) (fun max_severity =>
  bind (subscript scores max_severity) (fun top =>
  if (0 <? top)%Z
  then Ret (dict_set info k_severity (VStr max_severity))
  else Ret (dict_set info k_severity (VStr medium))))
  = Ret (dict_set info k_severity (VStr (chosen h m l))).
Proof.
  intros Hh Hm Hl scores.
  assert (Gh : subscript scores high = Ret h) by reflexivity.
  assert (Gm : subscript scores medium = Ret m) by reflexivity.
  assert (Gl : subscript scores low = Ret l) by reflexivity.
  unfold max_by_value, max_key, items, chosen, scores.
  cbn [max_from snd fst bind].
  fold scores.
  repeat (match goal with
          | |- context [(?a <? ?b)%Z] => destruct (Z.ltb_spec a b)
          | |- context [(?a <=? ?b)%Z] => destruct (Z.leb_spec a b)
          | |- context [(?a =? ?b)%Z] => destruct (Z.eqb_spec a b)
          | H : context [(?a <? ?b)%Z] |- _ => destruct (Z.ltb_spec a b)
          end;
          cbn [fst snd andb bind] in *; rewrite ?Gh, ?Gm, ?Gl;
          cbn [bind]);
    try reflexivity; lia.
Qed.

Lemma extract_severity_spec (text : str) (info : dict value) :
  extract_severity text info =
  Ret (dict_set info k_severity
         (VStr (chosen (bucket_count text keywords_high)
                       (bucket_count text keywords_medium)
                       (bucket_count text keywords_low)))).
Proof.
  unfold extract_severity. rewrite severity_scores_spec. cbn [bind].
  apply choose_from_scores; apply hits_range.
Qed.

End ExtractFacts.

(** ** Supporting lemmas for the stated properties *)

Module Support.
Import Py Re Spec PyFacts CountFacts ClassifyFacts ReFacts ExtractFacts.
Import Extract Classify.

Lemma distinct_nodup (ks : list str) : distinct ks = true -> NoDup ks.
Proof.
  induction ks as [|k ks IH]; simpl; intros H; constructor.
  - apply andb_true_iff in H. destruct H as [H _].
    apply negb_true_iff in H. intros Hin.
    assert (E : existsb (str_eqb k) ks = true).
    { apply existsb_exists. exists k. split; [exact Hin | apply str_eqb_refl]. }
    congruence.
  - apply IH. apply andb_true_iff in H. tauto.
Qed.

Lemma hits_zero (P : str -> bool) (kws : list str) :
  (forall kw, In kw kws -> P kw = false) -> hits P kws = 0%Z.
Proof.
  intros H. unfold hits.
  induction kws as [|kw kws IH]; [reflexivity|].
  cbn [filter]. rewrite (H kw) by (left; reflexivity).
  apply IH. intros kw' Hin. apply H. right; exact Hin.
Qed.

Lemma hits_pos (P : str -> bool) (kws : list str) (kw : str) :
  In kw kws -> P kw = true -> (0 < hits P kws)%Z.
Proof.
  intros Hin HP.
  induction kws as [|k kws IH]; [destruct Hin|].
  rewrite hits_cons. pose proof (hits_range P kws).
  destruct Hin as [->|Hin].
  - rewrite HP. lia.
  - specialize (IH Hin). destruct (P k); lia.
Qed.

(** The method runs to its end on every string, and its result is the
    dictionary of the first three steps with the severity added. *)
Lemma extract_key_info_run (text : str) :
  exists info1,
    extract_amount text (extract_product text []) = Ret info1 /\
    amount_ok info1 /\
    extract_key_info (Some text) =
    Ret (dict_set (extract_date text info1) k_severity
           (VStr (chosen (bucket_count text keywords_high)
                         (bucket_count text keywords_medium)
                         (bucket_count text keywords_low)))).
Proof.
  destruct (@extract_amount_ok text (extract_product text [])) as
    (info1 & H1 & Hok & _).
  { intros v Hv. rewrite extract_product_amount in Hv. discriminate. }
  exists info1. repeat split; auto.
  unfold extract_key_info. rewrite H1. cbn [bind].
  apply extract_severity_spec.
Qed.

End Support.

(** ** The stated properties *)

Import Py Re Spec PyFacts CountFacts ClassifyFacts ReFacts ExtractFacts.
Import Extract Classify Scenario Support.

(** C1.  On every text [extract_key_info] returns, and the severity it
    stores follows the counts of the three buckets, each keyword counted
    once when it occurs in the text: a bucket with the strictly greatest
    count is chosen; when all three counts are 0 the severity is medium;
    on a tie at a positive maximum high wins over medium and low, and
    medium wins over low. *)
Theorem severity_by_max_count (text : str) :
  exists info sev,
    extract_key_info (Some text) = Ret info /\
    dict_get info k_severity = Some (VStr sev) /\
    let h := bucket_count text keywords_high in
    let m := bucket_count text keywords_medium in
    let l := bucket_count text keywords_low in
    ((m < h)%Z -> (l < h)%Z -> sev = high) /\
    ((h < m)%Z -> (l < m)%Z -> sev = medium) /\
    ((h < l)%Z -> (m < l)%Z -> sev = low) /\
    (h = 0%Z -> m = 0%Z -> l = 0%Z -> sev = medium) /\
    ((0 < h)%Z -> (m <= h)%Z -> (l <= h)%Z -> sev = high) /\
    ((0 < m)%Z -> (h < m)%Z -> (l <= m)%Z -> sev = medium).
Proof.
  destruct (extract_key_info_run text) as (info1 & _ & _ & Hrun).
  eexists; eexists. split; [exact Hrun|]. split; [apply get_set_same|].
  pose proof (hits_range (fun keyword => contains keyword text) keywords_high).
  pose proof (hits_range (fun keyword => contains keyword text) keywords_medium).
  pose proof (hits_range (fun keyword => contains keyword text) keywords_low).
  unfold bucket_count in *. cbv zeta. unfold chosen.
  repeat split; intros;
    repeat match goal with
           | |- context [(?a <=? ?b)%Z] => destruct (Z.leb_spec a b)
           | |- context [(?a =? ?b)%Z] => destruct (Z.eqb_spec a b)
           end; cbn [andb]; try reflexivity; lia.
Qed.

(** A text with one high and one low keyword: the tie goes to high. *)
Lemma severity_by_max_count_witness :
  exists info,
    extract_key_info (Some urgent_question) = Ret info /\
    dict_get info k_severity = Some (VStr high).
Proof.
  destruct (severity_by_max_count urgent_question)
    as (info & sev & Hrun & Hget & _ & _ & _ & _ & Htie & _).
  exists info. split; [exact Hrun|].
  rewrite Hget. f_equal. f_equal. apply Htie; vm_compute; congruence.
Defined.

(** C3 (the code departs from it on [None]).  [classify] answers the
    sentinel for [None] and for the empty string, and [extract_key_info]
    answers a dictionary holding only the medium severity for the empty
    string; on [None], however, [extract_key_info] raises [TypeError]. *)
Theorem extract_key_info_none_raises
  (lower : str -> str) (isalpha : str -> bool)
  (word_tokenize : str -> outcome (list str)) (self : ComplaintClassifier) :
  classify lower isalpha word_tokenize self None = Ret (Some unclassified) /\
  classify lower isalpha word_tokenize self (Some []) = Ret (Some unclassified) /\
  extract_key_info (Some []) = Ret [(k_severity, VStr medium)] /\
  extract_key_info None = Raise TypeError.
Proof. repeat split; reflexivity. Qed.

(** C6 (the code departs from it).  On a text whose only product match is a
    bare upper-case token, [findall] answers a pair of empty groups, nothing
    is appended to [product_list], and the result has no [product_name]. *)
Theorem uppercase_token_not_captured :
  findall product_pattern uppercase_text = [VTuple [[]; []]] /\
  product_list (findall product_pattern uppercase_text) = [] /\
  exists info,
    extract_key_info (Some uppercase_text) = Ret info /\
    dict_get info k_product_name = None.
Proof.
  split; [vm_compute; reflexivity|]. split; [vm_compute; reflexivity|].
  eexists. split; [vm_compute; reflexivity | reflexivity].
Qed.

(** C7.  On the order text the result holds the quoted product name, the
    amount 99.99 and the ISO date. *)
Theorem extract_key_info_order_text :
  exists info,
    extract_key_info (Some order_text) = Ret info /\
    dict_get info k_product_name = Some (VStr (u "iPhone 13")) /\
    dict_get info k_amount = Some (VFloat (9999 # 100)) /\
    dict_get info k_incident_date = Some (VStr (u "2024-01-15")).
Proof.
  eexists. split; [vm_compute; reflexivity|].
  repeat split; vm_compute; reflexivity.
Qed.

(** C10.  Whenever the result of [extract_key_info] has an [amount], it is
    a float and it is not negative. *)
Theorem amount_non_negative (text : str) (info : dict value) (v : value) :
  extract_key_info (Some text) = Ret info ->
  dict_get info k_amount = Some v ->
  exists q, v = VFloat q /\ (0 <= q)%Q.
Proof.
  intros Hrun Hget.
  destruct (extract_key_info_run text) as (info1 & _ & Hok & Hrun').
  rewrite Hrun' in Hrun. inversion Hrun; subst info; clear Hrun.
  rewrite get_set_other in Hget by exact key_severity_amount.
  rewrite extract_date_other in Hget by exact key_date_amount.
  exact (Hok v Hget).
Qed.

Lemma amount_non_negative_witness :
  exists q, VFloat (9999 # 100) = VFloat q /\ (0 <= q)%Q.
Proof.
  apply (@amount_non_negative order_text
           [ (k_product_name, VStr (u "iPhone 13"));
             (k_amount, VFloat (9999 # 100));
             (k_incident_date, VStr (u "2024-01-15"));
             (k_severity, VStr medium) ]).
  - vm_compute; reflexivity.
  - vm_compute; reflexivity.
Defined.

Section KeywordClassifier.
Variable lower : str -> str.
Variable isalpha : str -> bool.
Variable word_tokenize : str -> outcome (list str).

(** C5.  After the counting loops the entry of every category is the
    number of its keywords whose lower-cased form occurs in the lower-cased
    text; a keyword adds 1 when it occurs, however often, and 0 otherwise,
    so the count lies between 0 and the number of keywords. *)
Theorem word_counts_per_keyword
  (self : ComplaintClassifier) (text category : str) (keywords : list str) :
  NoDup (keys (complaint_categories self)) ->
  In (category, keywords) (complaint_categories self) ->
  exists wc,
    word_counts lower self text = Ret wc /\
    dict_get wc category =
      Some (Z.of_nat (List.length
              (filter (fun keyword => contains (lower keyword) (lower text))
                      keywords))) /\
    (0 <= Z.of_nat (List.length
            (filter (fun keyword => contains (lower keyword) (lower text))
                    keywords))
       <= Z.of_nat (List.length keywords))%Z.
Proof.
  intros Hnd Hin. eexists. split; [apply word_counts_spec; exact Hnd|].
  split.
  - exact (@get_counted (occurs lower text) _ _ _ Hnd Hin).
  - exact (hits_range (occurs lower text) keywords).
Qed.

(** C2.  When the taxonomy reads [pre], then [category], then [post], every
    count in [pre] being strictly smaller and every count in [post] no
    greater than that of [category], the keyword path answers [category],
    the first of the categories tied at the maximum, and it answers the
    sentinel when that maximum is 0.  In particular, with two categories A
    and B sharing their single keyword and the text being that keyword,
    [classify] answers A, the first of the two. *)
Theorem classify_tie_break :
  (forall (self : ComplaintClassifier) (text : str)
          (pre post : dict (list str)) (category : str) (keywords : list str),
      NoDup (keys (complaint_categories self)) ->
      complaint_categories self = pre ++ (category, keywords) :: post ->
      Forall (fun kv => (hits (occurs lower text) (snd kv)
                         < hits (occurs lower text) keywords)%Z) pre ->
      Forall (fun kv => (hits (occurs lower text) (snd kv)
                         <= hits (occurs lower text) keywords)%Z) post ->
      keyword_match lower isalpha word_tokenize self text =
      Ret (Some (if (hits (occurs lower text) keywords =? 0)%Z
                 then unclassified else category)))
  /\
  (forall (self : ComplaintClassifier) (A B keyword : str),
      complaint_categories self = [(A, [keyword]); (B, [keyword])] ->
      A <> B -> keyword <> [] -> use_transformer self = false ->
      classify lower isalpha word_tokenize self (Some keyword) =
      Ret (Some A)).
Proof.
  split.
  - intros self text pre post category keywords Hnd Hsplit Hpre Hpost.
    eapply keyword_match_first_max; eauto.
  - intros self A B keyword Htax Hne Hkw Hoff.
    unfold classify. destruct keyword as [|c kw]; [congruence|].
    cbn [truthy negb]. rewrite Hoff.
    assert (Hhit : hits (occurs lower (c :: kw)) [c :: kw] = 1%Z).
    { unfold hits, occurs. cbn [filter]. rewrite contains_refl. reflexivity. }
    rewrite (@keyword_match_first_max lower isalpha word_tokenize self
               (c :: kw) [] [(B, [c :: kw])] A [c :: kw]).
    + rewrite Hhit. reflexivity.
    + rewrite Htax. simpl. constructor.
      * intros [H|[]]. apply Hne. symmetry; exact H.
      * constructor; [intros [] | constructor].
    + exact Htax.
    + constructor.
    + constructor; [|constructor]. cbn [snd]. lia.
Qed.

(** C4.  When the text contains a keyword of [category] and no keyword of
    any other category, the keyword path answers [category]; so does
    [classify] on such a non-empty text when the zero-shot model is off. *)
Theorem classify_single_category
  (self : ComplaintClassifier) (text category : str) (keywords : list str) :
  NoDup (keys (complaint_categories self)) ->
  In (category, keywords) (complaint_categories self) ->
  (exists keyword,
      In keyword keywords /\ contains (lower keyword) (lower text) = true) ->
  (forall other kws keyword,
      In (other, kws) (complaint_categories self) -> other <> category ->
      In keyword kws -> contains (lower keyword) (lower text) = false) ->
  keyword_match lower isalpha word_tokenize self text = Ret (Some category) /\
  (text <> [] -> use_transformer self = false ->
   classify lower isalpha word_tokenize self (Some text) =
   Ret (Some category)).
Proof.
  intros Hnd Hin (kw & Hkw & Hocc) Hothers.
  assert (Hpos : (0 < hits (occurs lower text) keywords)%Z).
  { eapply hits_pos; eauto. }
  assert (Hzero : forall other kws,
             In (other, kws) (complaint_categories self) ->
             other <> category -> hits (occurs lower text) kws = 0%Z).
  { intros other kws Ho Hne. apply hits_zero.
    intros k Hk. eapply Hothers; eauto. }
  destruct (in_split _ _ Hin) as (pre & post & Hsplit).
  assert (Hfresh : forall other kws, In (other, kws) (pre ++ post) ->
                                     other <> category).
  { intros other kws Ho ->. rewrite Hsplit in Hnd. unfold keys in Hnd.
    rewrite map_app in Hnd. simpl in Hnd. apply NoDup_remove_2 in Hnd.
    apply Hnd. rewrite <- map_app.
    change category with (fst (category, kws)). apply in_map; exact Ho. }
  assert (Hmatch : keyword_match lower isalpha word_tokenize self text =
                   Ret (Some category)).
  { rewrite (@keyword_match_first_max lower isalpha word_tokenize self text
               pre post category keywords Hnd Hsplit).
    - destruct (Z.eqb_spec (hits (occurs lower text) keywords) 0);
        [lia | reflexivity].
    - apply Forall_forall. intros [other kws] Ho. cbn [snd].
      rewrite (Hzero other kws); [exact Hpos | |].
      + rewrite Hsplit. apply in_or_app; left; exact Ho.
      + apply (Hfresh other kws). apply in_or_app; left; exact Ho.
    - apply Forall_forall. intros [other kws] Ho. cbn [snd].
      rewrite (Hzero other kws); [lia | |].
      + rewrite Hsplit. apply in_or_app; right; right; exact Ho.
      + apply (Hfresh other kws). apply in_or_app; right; exact Ho. }
  split; [exact Hmatch|].
  intros Htext Hoff. unfold classify.
  destruct text as [|c t]; [congruence|].
  cbn [truthy negb]. rewrite Hoff. exact Hmatch.
Qed.

(** C8.  On a non-empty text, when the zero-shot model is on and its call
    raises, [classify] answers exactly what the keyword path answers; on a
    non-empty taxonomy that answer is a category name or the sentinel, so
    no exception reaches the caller. *)
Theorem classify_falls_back
  (self : ComplaintClassifier) (text : str) (e : exn) :
  text <> [] ->
  use_transformer self = true ->
  classifier self text (keys (complaint_categories self)) = Raise e ->
  classify lower isalpha word_tokenize self (Some text) =
    keyword_match lower isalpha word_tokenize self text /\
  (NoDup (keys (complaint_categories self)) ->
   complaint_categories self <> [] ->
   exists c, classify lower isalpha word_tokenize self (Some text) =
             Ret (Some c)).
Proof.
  intros Htext Hon Hraise.
  assert (Heq : classify lower isalpha word_tokenize self (Some text) =
                keyword_match lower isalpha word_tokenize self text).
  { unfold classify. destruct text as [|c t]; [congruence|].
    cbn [truthy negb]. rewrite Hon.
    unfold transformer_label. rewrite Hraise. reflexivity. }
  split; [exact Heq|].
  intros Hnd Hne. rewrite Heq. apply keyword_match_total; assumption.
Qed.

(** C9.  On a non-empty taxonomy the keyword path raises on no string:
    it answers a category name or the sentinel.  When the tokenizer raises,
    the tokens are those of whitespace splitting, and the answer is the
    same whatever the tokenizer does, as the counts never read the tokens. *)
Theorem keyword_match_never_raises
  (self : ComplaintClassifier) (text : str) :
  NoDup (keys (complaint_categories self)) ->
  complaint_categories self <> [] ->
  (exists c, keyword_match lower isalpha word_tokenize self text =
             Ret (Some c)) /\
  (forall e, word_tokenize (lower text) = Raise e ->
             tokenize lower isalpha word_tokenize self text =
             split (lower text)) /\
  (forall isalpha' word_tokenize',
      keyword_match lower isalpha' word_tokenize' self text =
      keyword_match lower isalpha word_tokenize self text).
Proof.
  intros Hnd Hne. split; [apply keyword_match_total; assumption|].
  split.
  - intros e He. unfold tokenize. rewrite He. reflexivity.
  - intros. reflexivity.
Qed.

End KeywordClassifier.

(** *** The properties at the documented scenarios *)

Lemma word_counts_per_keyword_witness :
  exists wc,
    word_counts ascii_lower (keyword_only two_categories) late_delivery
      = Ret wc /\
    dict_get wc (u "物流延迟") = Some 2%Z.
Proof.
  destruct (@word_counts_per_keyword ascii_lower
              (keyword_only two_categories) late_delivery
              (u "物流延迟") (map u ["延迟"; "物流"]%string))
    as (wc & Hrun & Hget & _).
  - apply distinct_nodup. vm_compute. reflexivity.
  - left. reflexivity.
  - exists wc. split; [exact Hrun|]. rewrite Hget. vm_compute. reflexivity.
Defined.

Lemma classify_tie_break_witness :
  classify ascii_lower letters_only no_punkt (keyword_only shared_keyword)
    (Some (u "退款")) = Ret (Some (u "A")).
Proof.
  apply (proj2 (classify_tie_break ascii_lower letters_only no_punkt)
           (keyword_only shared_keyword) (u "A") (u "B") (u "退款")).
  - reflexivity.
  - vm_compute. discriminate.
  - vm_compute. discriminate.
  - reflexivity.
Defined.

Lemma classify_single_category_witness :
  classify ascii_lower letters_only no_punkt
    (keyword_only two_categories) (Some late_delivery) =
  Ret (Some (u "物流延迟")).
Proof.
  refine (proj2 (@classify_single_category ascii_lower letters_only no_punkt
                   (keyword_only two_categories) late_delivery
                   (u "物流延迟") (map u ["延迟"; "物流"]%string) _ _ _ _)
                _ _).
  - apply distinct_nodup. vm_compute. reflexivity.
  - left. reflexivity.
  - exists (u "延迟"). split; [left; reflexivity | vm_compute; reflexivity].
  - intros other kws keyword Hin Hne Hkw.
    destruct Hin as [Hin|[Hin|[]]]; inversion Hin; subst.
    + contradiction Hne. reflexivity.
    + destruct Hkw as [<-|[<-|[]]]; vm_compute; reflexivity.
  - vm_compute. discriminate.
  - reflexivity.
Defined.

Lemma classify_falls_back_witness :
  classify ascii_lower letters_only no_punkt
    (failing_model default_categories) (Some late_delivery) =
  keyword_match ascii_lower letters_only no_punkt
    (failing_model default_categories) late_delivery.
Proof.
  refine (proj1 (@classify_falls_back ascii_lower letters_only no_punkt
                   (failing_model default_categories) late_delivery
                   RuntimeError _ _ _)).
  - vm_compute. discriminate.
  - reflexivity.
  - reflexivity.
Defined.

Lemma keyword_match_never_raises_witness :
  exists c,
    keyword_match ascii_lower letters_only no_punkt
      (keyword_only default_categories) late_delivery = Ret (Some c).
Proof.
  refine (proj1 (@keyword_match_never_raises ascii_lower letters_only
                   no_punkt (keyword_only default_categories) late_delivery
                   _ _)).
  - apply distinct_nodup. vm_compute. reflexivity.
  - vm_compute. discriminate.
Defined.

(** ** Further facts about the matcher *)

Module ScanFacts.
Import Shape.

Lemma piece_in (c : char) (w s : str) : piece w s -> In c w -> In c s.
Proof.
  intros (a & b & ->) H. apply in_or_app; right. apply in_or_app; left; exact H.
Qed.

Lemma piece_cons (x : char) (w s : str) : piece w s -> piece w (x :: s).
Proof. intros (a & b & ->). exists (x :: a), b. reflexivity. Qed.

(** What [p in s] answers when [p] is a piece of [s]. *)
Lemma startswith_app (p s : str) : startswith p (p ++ s) = true.
Proof. induction p; simpl; [|rewrite N.eqb_refl]; auto. Qed.

Lemma piece_contains (w s : str) : piece w s -> contains w s = true.
Proof.
  intros (a & b & ->). induction a as [|x a IH].
  - cbn [app]. pose proof (startswith_app w b) as H.
    destruct (w ++ b); cbn [contains]; rewrite H; reflexivity.
  - cbn [app contains]. rewrite IH. apply orb_true_r.
Qed.

(** Every match the scan reports is a piece of the text, matched by the
    pattern in the declarative sense. *)
Lemma scan_whole (r : re) (s : str) :
  forall skip,
    Forall (fun m => matches r (whole m) [] (groups m) /\ piece (whole m) s)
           (scan r s skip).
Proof.
  induction s as [|x s IH]; intros skip; cbn [scan].
  - destruct skip; [|constructor].
    destruct (match_at r []) as [[rest c]|] eqn:E; [|constructor].
    constructor; [|constructor]. cbn [whole groups].
    destruct (match_at_sound _ _ E) as (w & Hw & M).
    symmetry in Hw. apply app_eq_nil in Hw. destruct Hw as [-> ->].
    split; [exact M | exists [], []; reflexivity].
  - assert (Htail : forall n,
               Forall (fun m => matches r (whole m) [] (groups m) /\
                                piece (whole m) (x :: s)) (scan r s n)).
    { intros n. eapply Forall_impl; [|apply IH].
      intros m [M P]. split; [exact M | apply piece_cons; exact P]. }
    destruct skip as [|n]; [|apply Htail].
    destruct (match_at r (x :: s)) as [[rest c]|] eqn:E; [|apply Htail].
    constructor; [|apply Htail]. cbn [whole groups].
    destruct (match_at_sound _ _ E) as (w & Hw & M).
    rewrite Hw, firstn_consumed.
    split; [exact M | exists [], rest; reflexivity].
Qed.

Lemma finditer_whole (r : re) (s : str) :
  Forall (fun m => matches r (whole m) [] (groups m) /\ piece (whole m) s)
         (finditer r s).
Proof. apply scan_whole. Qed.

(** A greedy repetition that can take the whole run [w] and whose
    continuation accepts what follows takes exactly [w]. *)
Lemma rep_take {R} (p : char -> bool) (w rest : str) :
  forall lo hi (k : str -> option R) x,
    forallb p w = true -> lo <= List.length w ->
    (forall h, hi = Some h -> List.length w <= h) ->
    (hi = Some (List.length w) \/
     match rest with [] => True | c :: _ => p c = false end) ->
    k rest = Some x ->
    rep p lo hi (w ++ rest) k = Some x.
Proof.
  induction w as [|c w IH]; intros lo hi k x Hall Hlo Hhi Hstop Hk.
  - simpl in Hlo. assert (lo = 0) by lia. subst lo. cbn [app].
    destruct rest as [|c rest]; [exact Hk|]. cbn [rep].
    destruct Hstop as [->|Hc]; [rewrite andb_false_r | rewrite Hc]; exact Hk.
  - cbn [app rep]. simpl in Hall. apply andb_true_iff in Hall.
    destruct Hall as [Hc Hall]. rewrite Hc.
    assert (Hb : below hi = true).
    { destruct hi as [h|]; [|reflexivity]. specialize (Hhi h eq_refl).
      simpl in Hhi. destruct h; [lia | reflexivity]. }
    rewrite Hb. cbn [andb].
    rewrite (IH (Nat.pred lo) (dec hi) k x); auto.
    + simpl in Hlo. lia.
    + intros h Hh. destruct hi as [h0|]; [|discriminate].
      inversion Hh; subst. specialize (Hhi h0 eq_refl). simpl in Hhi. lia.
    + destruct Hstop as [->|Hr]; [left; reflexivity | right; exact Hr].
Qed.

Lemma other_than_all (a : char) (w : str) :
  forallb (other_than a) w = true <-> ~ In a w.
Proof.
  unfold other_than. induction w as [|c w IH]; simpl; [tauto|].
  rewrite andb_true_iff, negb_true_iff, N.eqb_neq, IH. intuition.
Qed.

End ScanFacts.

(** ** Further facts about [extract_key_info] *)

Module ExtractMore.
Import Shape ScanFacts.

Ltac inv_matches :=
  repeat match goal with
         | H : matches (Lit _) _ _ _ |- _ => inversion H; subst; clear H
         | H : matches (Cls _) _ _ _ |- _ => inversion H; subst; clear H
         | H : matches (Cat _ _) _ _ _ |- _ => inversion H; subst; clear H
         | H : matches (Alt _ _) _ _ _ |- _ => inversion H; subst; clear H
         | H : matches (Opt _) _ _ _ |- _ => inversion H; subst; clear H
         | H : matches (Rep _ _ _) _ _ _ |- _ => inversion H; subst; clear H
         | H : matches (Grp _ _) _ _ _ |- _ => inversion H; subst; clear H
         end.

(** The three ways the product pattern matches. *)
Lemma product_match (w : str) (c : caps) :
  matches product_pattern w [] c ->
  (exists name, name <> [] /\ ~ In quote name /\
                w = quoted quote name /\ c = [(1, name)]) \/
  (exists name, name <> [] /\ ~ In apostrophe name /\
                w = quoted apostrophe name /\ c = [(2, name)]) \/
  (c = [] /\ forallb upper w = true /\ 2 <= List.length w).
Proof.
  unfold product_pattern, plus. cbn [cat]. intros H. inv_matches.
  - left. eexists. repeat split; eauto.
    + intros ->. simpl in *. lia.
    + apply other_than_all; assumption.
  - right; left. eexists. repeat split; eauto.
    + intros ->. simpl in *. lia.
    + apply other_than_all; assumption.
  - right; right. auto.
Qed.

Lemma findall_product (text : str) :
  Forall (product_item text) (findall product_pattern text).
Proof.
  unfold findall. apply Forall_map.
  eapply Forall_impl; [|apply finditer_whole].
  intros [w c] [M P]. cbn [whole groups] in *.
  change (ngroups product_pattern) with 2. unfold item_of. cbn [seq map].
  destruct (product_match M) as
    [(name & Hne & Hq & -> & ->)|[(name & Hne & Hq & -> & ->)|(-> & _)]].
  - left. exists name. repeat split; auto.
  - right; left. exists name. repeat split; auto.
  - right; right. reflexivity.
Qed.

Lemma product_list_sound (text : str) (items : list value) :
  Forall (product_item text) items ->
  Forall (product_value text) (product_list items).
Proof.
  induction 1 as [|v items Hv _ IH]; cbn [product_list]; [constructor|].
  destruct Hv as
    [(name & -> & Hne & Hq & P)|[(name & -> & Hne & Hq & P)| ->]].
  - destruct name as [|x name]; [congruence|]. cbn [filter truthy map app].
    constructor; [|exact IH].
    exists quote, (x :: name). repeat split; auto.
  - destruct name as [|x name]; [congruence|]. cbn [filter truthy map app].
    constructor; [|exact IH].
    exists apostrophe, (x :: name). repeat split; auto.
  - exact IH.
Qed.

(** Without a quote or an apostrophe in the text only upper-case runs can
    match, and they bring nothing into [product_list]. *)
Lemma product_list_unquoted (text : str) :
  ~ In quote text -> ~ In apostrophe text ->
  product_list (findall product_pattern text) = [].
Proof.
  intros Hq Ha.
  assert (H : Forall (fun v => v = VTuple [[]; []])
                     (findall product_pattern text)).
  { eapply Forall_impl; [|apply findall_product].
    intros v [(name & _ & _ & _ & P)|[(name & _ & _ & _ & P)|Hv]];
      [exfalso; apply Hq | exfalso; apply Ha | exact Hv].
    - eapply piece_in; [exact P | left; reflexivity].
    - eapply piece_in; [exact P | left; reflexivity]. }
  induction H as [|v items Hv _ IH]; [reflexivity | subst v; exact IH].
Qed.

(** The entries of the result, step by step. *)
Lemma amount_loop_shape (amounts : list value) :
  Forall (fun v => exists t, v = VTuple t /\ Forall parses t) amounts ->
  forall info,
  exists info', amount_loop amounts info = Ret info' /\
                (info' = info \/
                 exists q, info' = dict_set info k_amount (VFloat q)).
Proof.
  assert (Htuple : forall t info, Forall parses t ->
             exists info', amount_of_tuple t info = Ret info' /\
                (info' = info \/
                 exists q, info' = dict_set info k_amount (VFloat q))).
  { intros t info Ht. induction Ht as [|a t Ha _ IH]; cbn [amount_of_tuple].
    - exists info; auto.
    - destruct (truthy a) eqn:E; [|exact IH].
      destruct (Ha E) as (q & Hq & _). cbn [float]. rewrite Hq. cbn [bind].
      eexists; split; [reflexivity|]. right. exists q; reflexivity. }
  induction 1 as [|v amounts (t & -> & Ht) _ IH]; intros info;
    cbn [amount_loop].
  - exists info; auto.
  - destruct (Htuple t info Ht) as (info1 & -> & Hshape). cbn [bind].
    destruct (has_key info1 k_amount) eqn:E.
    + exists info1; auto.
    + destruct Hshape as [->|(q & ->)]; [apply IH|].
      unfold has_key in E. rewrite get_set_same in E. discriminate.
Qed.

Lemma keys_set_incl {V} (d : dict V) (k : str) (v : V) :
  incl (keys (dict_set d k v)) (k :: keys d).
Proof.
  induction d as [|[k0 v0] d IH]; simpl.
  - intros x [<-|[]]; left; reflexivity.
  - destruct (str_eqb k k0) eqn:E; simpl.
    + intros x Hx. right; exact Hx.
    + intros x [<-|Hx]; [right; left; reflexivity|].
      destruct (IH x Hx) as [<-|Hin]; [left | right; right]; auto.
Qed.

Lemma keys_set_nodup {V} (d : dict V) (k : str) (v : V) :
  NoDup (keys d) -> NoDup (keys (dict_set d k v)).
Proof.
  induction d as [|[k0 v0] d IH]; simpl; intros Hnd.
  - constructor; [intros [] | constructor].
  - inversion Hnd as [|? ? Hnot Hnd']; subst.
    destruct (str_eqb k k0) eqn:E; simpl; [constructor; auto|].
    constructor; [|apply IH; exact Hnd'].
    intros Hin. destruct (keys_set_incl d k v _ Hin) as [<-|Hin'].
    + rewrite str_eqb_refl in E. discriminate.
    + contradiction.
Qed.

End ExtractMore.

(** ** The result dictionary of [extract_key_info], entry by entry *)

Module InfoFacts.
Import Shape ScanFacts ExtractMore.

Lemma info_keys_distinct : NoDup info_keys.
Proof. apply distinct_nodup. vm_compute. reflexivity. Qed.

Lemma key_amount_product : k_product_name <> k_amount.
Proof. vm_compute; discriminate. Qed.

Lemma key_date_product : k_product_name <> k_incident_date.
Proof. vm_compute; discriminate. Qed.

Lemma key_severity_product : k_product_name <> k_severity.
Proof. vm_compute; discriminate. Qed.

Lemma key_severity_date : k_incident_date <> k_severity.
Proof. vm_compute; discriminate. Qed.

Lemma key_amount_date : k_incident_date <> k_amount.
Proof. vm_compute; discriminate. Qed.

(** The method as a chain of four assignments. *)
Lemma extract_key_info_shape (text : str) :
  exists info1,
    (info1 = extract_product text [] \/
     exists q, info1 = dict_set (extract_product text []) k_amount (VFloat q))
    /\ extract_amount text (extract_product text []) = Ret info1
    /\ extract_key_info (Some text) =
       Ret (dict_set (extract_date text info1) k_severity
              (VStr (chosen (bucket_count text keywords_high)
                            (bucket_count text keywords_medium)
                            (bucket_count text keywords_low)))).
Proof.
  destruct (@amount_loop_shape (findall amount_pattern text)
              (findall_amount text) (extract_product text []))
    as (info1 & Hrun & Hshape).
  exists info1. split; [exact Hshape|]. split; [exact Hrun|].
  unfold extract_key_info. unfold extract_amount. rewrite Hrun. cbn [bind].
  apply extract_severity_spec.
Qed.

Lemma product_entry (text : str) (info : dict value) :
  extract_key_info (Some text) = Ret info ->
  dict_get info k_product_name =
  match product_list (findall product_pattern text) with
  | [] => None
  | first :: _ => Some first
  end.
Proof.
  intros Hrun.
  destruct (extract_key_info_shape text) as (info1 & Hshape & _ & Hrun').
  rewrite Hrun' in Hrun. inversion Hrun; subst info; clear Hrun.
  rewrite get_set_other by exact key_severity_product.
  rewrite extract_date_other by exact key_date_product.
  assert (Hp : dict_get info1 k_product_name =
               dict_get (extract_product text []) k_product_name).
  { destruct Hshape as [->|(q & ->)]; [reflexivity|].
    apply get_set_other. exact key_amount_product. }
  rewrite Hp. unfold extract_product.
  destruct (findall product_pattern text) as [|v l]; [reflexivity|].
  destruct (product_list (v :: l)); [reflexivity|].
  apply get_set_same.
Qed.

Lemma date_entry (text : str) (info : dict value) :
  extract_key_info (Some text) = Ret info ->
  dict_get info k_incident_date =
  match findall date_pattern text with
  | [] => None
  | first :: _ => Some first
  end.
Proof.
  intros Hrun.
  destruct (extract_key_info_shape text) as (info1 & Hshape & _ & Hrun').
  rewrite Hrun' in Hrun. inversion Hrun; subst info; clear Hrun.
  rewrite get_set_other by exact key_severity_date.
  unfold extract_date.
  destruct (findall date_pattern text) as [|d l]; [|apply get_set_same].
  assert (Hp : dict_get (extract_product text []) k_incident_date = None).
  { unfold extract_product.
    destruct (findall product_pattern text) as [|v l]; [reflexivity|].
    destruct (product_list (v :: l)); [reflexivity|].
    rewrite get_set_other by (intros H; symmetry in H;
                              exact (key_date_product H)).
    reflexivity. }
  destruct Hshape as [->|(q & ->)]; [exact Hp|].
  rewrite get_set_other by exact key_amount_date. exact Hp.
Qed.

Lemma amount_entry (text : str) (info : dict value) :
  extract_key_info (Some text) = Ret info ->
  exists info1,
    amount_loop (findall amount_pattern text) (extract_product text [])
      = Ret info1 /\
    dict_get info k_amount = dict_get info1 k_amount.
Proof.
  intros Hrun.
  destruct (extract_key_info_shape text) as (info1 & _ & Ham & Hrun').
  rewrite Hrun' in Hrun. inversion Hrun; subst info; clear Hrun.
  exists info1. split; [exact Ham|].
  rewrite get_set_other by exact key_severity_amount.
  apply extract_date_other. exact key_date_amount.
Qed.

Lemma keys_product (text : str) :
  incl (keys (extract_product text [])) [k_product_name] /\
  NoDup (keys (extract_product text [])).
Proof.
  unfold extract_product.
  destruct (findall product_pattern text) as [|v l];
    [split; [intros x [] | constructor]|].
  destruct (product_list (v :: l));
    [split; [intros x [] | constructor]|].
  simpl. split; [intros x Hx; exact Hx|].
  constructor; [intros [] | constructor].
Qed.

(** The keys of the result: among the four, none twice. *)
Lemma result_keys (text : str) (info : dict value) :
  extract_key_info (Some text) = Ret info ->
  incl (keys info) info_keys /\ NoDup (keys info).
Proof.
  intros Hrun0.
  destruct (extract_key_info_shape text) as (info1 & Hshape & _ & Hrun).
  rewrite Hrun in Hrun0. inversion Hrun0; subst info; clear Hrun0.
  destruct (keys_product text) as [Hincl Hnd].
  assert (H1 : incl (keys info1) [k_amount; k_product_name] /\
               NoDup (keys info1)).
  { destruct Hshape as [->|(q & ->)].
    - split; [|exact Hnd]. intros x Hx. right. apply Hincl; exact Hx.
    - split; [|apply keys_set_nodup; exact Hnd].
      intros x Hx. destruct (keys_set_incl _ _ _ _ Hx) as [<-|Hx'];
        [left; reflexivity | right; apply Hincl; exact Hx']. }
  destruct H1 as [Hincl1 Hnd1].
  assert (H2 : incl (keys (extract_date text info1))
                    [k_incident_date; k_amount; k_product_name] /\
               NoDup (keys (extract_date text info1))).
  { unfold extract_date. destruct (findall date_pattern text) as [|d l].
    - split; [|exact Hnd1]. intros x Hx. right. apply Hincl1; exact Hx.
    - split; [|apply keys_set_nodup; exact Hnd1].
      intros x Hx. destruct (keys_set_incl _ _ _ _ Hx) as [<-|Hx'];
        [left; reflexivity | right; apply Hincl1; exact Hx']. }
  destruct H2 as [Hincl2 Hnd2].
  split; [|apply keys_set_nodup; exact Hnd2].
  intros x Hx. unfold info_keys.
  destruct (keys_set_incl _ _ _ _ Hx) as [<-|Hx']; [simpl; tauto|].
  destruct (Hincl2 x Hx') as [<-|[<-|[<-|[]]]]; simpl; tauto.
Qed.

End InfoFacts.

Import Shape ScanFacts ExtractMore InfoFacts.

(** X1.  On every text the result has no key besides the four the method
    writes, no key twice, and always a severity, which is one of high,
    medium, low. *)
Theorem extract_key_info_keys (text : str) :
  exists info,
    extract_key_info (Some text) = Ret info /\
    incl (keys info) info_keys /\ NoDup (keys info) /\
    exists sev, dict_get info k_severity = Some (VStr sev) /\
                (sev = high \/ sev = medium \/ sev = low).
Proof.
  destruct (extract_key_info_shape text) as (info1 & _ & _ & Hrun).
  eexists. split; [exact Hrun|].
  destruct (@result_keys text _ Hrun) as [Hincl Hnd].
  split; [exact Hincl|]. split; [exact Hnd|].
  eexists. split; [apply get_set_same|].
  unfold chosen.
  destruct (_ && _ && _)%bool; [tauto|].
  destruct (_ && _)%bool; [tauto|].
  destruct (_ <=? _)%Z; tauto.
Qed.

(** X2.  A product name in the result is never an upper-case token: it is a
    non-empty text that stands in the input between two double quotes or
    between two apostrophes, and holds no such delimiter itself. *)
Theorem product_name_is_quoted (text : str) (info : dict value) (v : value) :
  extract_key_info (Some text) = Ret info ->
  dict_get info k_product_name = Some v ->
  product_value text v.
Proof.
  intros Hrun Hget. rewrite (@product_entry text info Hrun) in Hget.
  pose proof (@product_list_sound text _ (findall_product text)) as Hall.
  destruct (product_list (findall product_pattern text)) as [|first rest];
    [discriminate|].
  inversion Hget; subst v. inversion Hall; assumption.
Qed.

(** X3.  On a text without a double quote and without an apostrophe the
    result has no product name, whatever upper-case tokens it holds. *)
Theorem product_name_needs_quotes (text : str) :
  ~ In quote text -> ~ In apostrophe text ->
  exists info,
    extract_key_info (Some text) = Ret info /\
    dict_get info k_product_name = None.
Proof.
  intros Hq Ha.
  destruct (extract_key_info_shape text) as (info1 & _ & _ & Hrun).
  eexists. split; [exact Hrun|].
  rewrite (@product_entry text _ Hrun), product_list_unquoted by assumption.
  reflexivity.
Qed.

(** ** What the scan finds first *)

Module FirstMatch.

(** A run of characters of a class cannot reach past a character outside
    the class. *)
Lemma run_stops (P : char -> bool) (w rest p t : str) (q : char) :
  w ++ rest = p ++ q :: t -> forallb P w = true -> P q = false ->
  List.length w <= List.length p.
Proof.
  revert p; induction w as [|x w IH]; intros p Heq Hall Hq; simpl; [lia|].
  simpl in Hall. apply andb_true_iff in Hall. destruct Hall as [Hx Hall].
  destruct p as [|y p]; simpl in Heq; inversion Heq; subst.
  - congruence.
  - simpl. specialize (IH p H1 Hall Hq). lia.
Qed.

(** The scan steps over a prefix in which no match can begin. *)
Lemma scan_dead_prefix (r : re) (pre tail : str) :
  (forall a c b, pre = a ++ c :: b -> match_at r (c :: b ++ tail) = None) ->
  scan r (pre ++ tail) 0 = scan r tail 0.
Proof.
  induction pre as [|c pre IH]; intros Hdead; [reflexivity|].
  cbn [app scan]. rewrite (Hdead [] c pre eq_refl).
  apply IH. intros a c' b ->. apply (Hdead (c :: a) c' b). reflexivity.
Qed.

(** A quoted name at the head of the text is matched by the first
    alternative of the product pattern. *)
Lemma match_at_quoted (name post : str) :
  name <> [] -> ~ In quote name ->
  match_at product_pattern (quote :: name ++ quote :: post) =
  Some (post, [(1, name)]).
Proof.
  intros Hne Hq. unfold match_at, product_pattern, plus. cbn [cat run].
  rewrite N.eqb_refl.
  rewrite (@rep_take _ (other_than quote) name (quote :: post) 1 None _
             (post, [(1, name)])).
  - reflexivity.
  - apply other_than_all; exact Hq.
  - destruct name; [congruence | simpl; lia].
  - discriminate.
  - right. reflexivity.
  - rewrite N.eqb_refl. rewrite firstn_consumed. reflexivity.
Qed.

(** Ahead of the first quote, upper-case runs are the only matches, and
    they leave [product_list] as it is. *)
Lemma product_prefix (pre tail : str) :
  ~ In quote pre -> ~ In apostrophe pre ->
  forall skip, skip <= List.length pre ->
    product_list (map (item_of 2) (scan product_pattern
                                     (pre ++ quote :: tail) skip)) =
    product_list (map (item_of 2) (scan product_pattern (quote :: tail) 0)).
Proof.
  induction pre as [|c pre IH]; intros Hq Ha skip Hskip.
  - simpl in Hskip. assert (skip = 0) by lia. subst. reflexivity.
  - assert (Hq' : ~ In quote pre) by (intros H; apply Hq; right; exact H).
    assert (Ha' : ~ In apostrophe pre) by (intros H; apply Ha; right; exact H).
    cbn [app]. cbn [scan].
    destruct skip as [|n]; [|apply IH; simpl in Hskip; auto; lia].
    destruct (match_at product_pattern (c :: pre ++ quote :: tail))
      as [[rest caps]|] eqn:E; [|apply IH; auto; lia].
    destruct (match_at_sound _ _ E) as (w & Hw & M).
    destruct (product_match M) as
      [(name & _ & _ & -> & _)|[(name & _ & _ & -> & _)|(-> & Hup & Hlen)]].
    + exfalso. apply Hq. left. unfold quoted in Hw. simpl in Hw.
      inversion Hw; reflexivity.
    + exfalso. apply Ha. left. unfold quoted in Hw. simpl in Hw.
      inversion Hw; reflexivity.
    + cbn [map]. unfold item_of at 1. cbn [seq map group_text group].
      cbn [product_list filter truthy map app].
      apply IH; auto.
      rewrite Hw, length_app, Nat.add_sub.
      assert (Hb : List.length w <= List.length (c :: pre)).
      { eapply (@run_stops upper w rest (c :: pre) tail quote); eauto. }
      simpl in Hb. lia.
Qed.

End FirstMatch.

Import FirstMatch.

(** X4.  When the first quote character of the text opens a double-quoted
    non-empty name, that name is the product name, whatever upper-case
    tokens come before it. *)
Theorem product_name_first_quoted (pre name post : str) :
  ~ In quote pre -> ~ In apostrophe pre ->
  name <> [] -> ~ In quote name ->
  exists info,
    extract_key_info (Some (pre ++ quoted quote name ++ post)) = Ret info /\
    dict_get info k_product_name = Some (VStr name).
Proof.
  intros Hq Ha Hne Hn.
  set (text := pre ++ quoted quote name ++ post).
  destruct (extract_key_info_shape text) as (info1 & _ & _ & Hrun).
  eexists. split; [exact Hrun|].
  rewrite (@product_entry text _ Hrun).
  assert (Htext : text = pre ++ quote :: name ++ quote :: post).
  { unfold text, quoted. rewrite <- !app_assoc. reflexivity. }
  unfold findall, finditer.
  change (ngroups product_pattern) with 2.
  rewrite Htext, (@product_prefix pre (name ++ quote :: post) Hq Ha 0)
    by lia.
  cbn [scan]. rewrite (match_at_quoted post Hne Hn).
  cbn [map]. unfold item_of at 1. cbn [seq map group_text group groups].
  cbn [Nat.eqb]. cbn [product_list].
  destruct name as [|x name]; [congruence|].
  cbn [filter truthy map app]. reflexivity.
Qed.

(** ** Amounts and dates: what is found and what is not *)

Module AmountDate.
Import FloatFacts.

Lemma decimal_not_space (c : char) : isdecimal c = true -> isspace c = false.
Proof.
  intros Hd. destruct (isspace c) eqn:E; [exfalso | reflexivity].
  assert (Hin : In c [9; 10; 11; 12; 13; 28; 29; 30; 31; 32; 0x85; 0xa0;
                      0x1680; 0x2000; 0x2001; 0x2002; 0x2003; 0x2004;
                      0x2005; 0x2006; 0x2007; 0x2008; 0x2009; 0x200a;
                      0x2028; 0x2029; 0x202f; 0x205f; 0x3000]%N).
  { unfold isspace in E.
    repeat rewrite orb_true_iff in E.
    repeat rewrite andb_true_iff in E.
    repeat rewrite N.leb_le in E. repeat rewrite N.eqb_eq in E.
    simpl. lia. }
  simpl in Hin.
  repeat (destruct Hin as [<-|Hin]; [vm_compute in Hd; discriminate|]).
  exact Hin.
Qed.

Lemma digits_some_all (s : str) (ds : list N) :
  digits s = Some ds -> forallb isdecimal s = true.
Proof.
  revert ds; induction s as [|c s IH]; intros ds H; [reflexivity|].
  simpl in H. simpl. unfold isdecimal at 1.
  destruct (to_decimal c); [|discriminate].
  destruct (digits s) as [ds'|]; [|discriminate].
  rewrite (IH ds' eq_refl). reflexivity.
Qed.

(** [float] on a run of digits answers the integer they spell. *)
Lemma float_integer (ip : str) (ds : list N) :
  ip <> [] -> digits ip = Some ds -> float_str ip = Ret (integer_value ds).
Proof.
  intros Hne Hds. pose proof (digits_some_all _ Hds) as Hall.
  destruct ip as [|c ip]; [congruence|].
  assert (Hc : isdecimal c = true).
  { simpl in Hall. apply andb_true_iff in Hall. tauto. }
  destruct (@decimal_not_sign c Hc) as [H45 H43].
  unfold float_str. rewrite H45, H43. unfold unsigned_float.
  assert (Hs : span_digits (c :: ip) = (c :: ip, [])).
  { pose proof (@span_digits_app (c :: ip) [] Hall I) as H.
    rewrite app_nil_r in H. exact H. }
  rewrite Hs, Hds. reflexivity.
Qed.

(** Every match of the amount pattern holds a dollar sign or the yuan
    word. *)
Lemma amount_match (w : str) (c : caps) :
  matches amount_pattern w [] c -> In dollar w \/ In yuan w.
Proof.
  unfold amount_pattern, decimal, plus, star, times. cbn [cat].
  intros H. inv_matches;
    repeat rewrite in_app_iff; simpl; tauto.
Qed.

Lemma findall_nil_without (r : re) (text : str) :
  (forall w c, matches r w [] c -> piece w text -> False) ->
  finditer r text = [].
Proof.
  intros H. pose proof (finditer_whole r text) as Hall.
  destruct (finditer r text) as [|m l]; [reflexivity|].
  inversion Hall as [|? ? [M Pc] _]; subst.
  exfalso. eapply H; eauto.
Qed.

(** No match of the amount pattern begins at a character that is neither a
    dollar sign nor a digit. *)
Lemma amount_dead (c : char) (s : str) :
  c <> dollar -> isdecimal c = false -> match_at amount_pattern (c :: s) = None.
Proof.
  intros Hd Hc. unfold match_at, amount_pattern, decimal, plus, star, times.
  cbn [cat run rep]. unfold digit. rewrite Hc.
  apply N.eqb_neq in Hd. rewrite Hd. reflexivity.
Qed.


End AmountDate.

Import AmountDate.

(** X5.  On a text with no dollar sign and no yuan character the result has
    no amount, whatever numbers the text holds. *)
Theorem amount_needs_currency (text : str) :
  ~ In dollar text -> ~ In yuan text ->
  exists info,
    extract_key_info (Some text) = Ret info /\
    dict_get info k_amount = None.
Proof.
  intros Hd Hy.
  destruct (extract_key_info_shape text) as (info1 & _ & _ & Hrun).
  eexists. split; [exact Hrun|].
  destruct (@amount_entry text _ Hrun) as (info2 & Hloop & ->).
  unfold findall in Hloop.
  rewrite (@findall_nil_without amount_pattern text) in Hloop.
  - cbn [map amount_loop] in Hloop. inversion Hloop; subst.
    apply extract_product_amount.
  - intros w c M P. destruct (amount_match M) as [H|H].
    + apply Hd. eapply piece_in; eauto.
    + apply Hy. eapply piece_in; eauto.
Qed.


Module DateFacts.

Lemma digit_date_chars (w : str) :
  forallb digit w = true -> forallb date_char w = true.
Proof.
  induction w as [|c w IH]; simpl; [reflexivity|].
  intros H. apply andb_true_iff in H. destruct H as [Hc Hw].
  unfold date_char at 1. unfold digit in Hc. rewrite Hc, (IH Hw). reflexivity.
Qed.

Lemma sep_date_char (c : char) : sep c = true -> date_char c = true.
Proof. intros H. unfold date_char. rewrite H. apply orb_true_r. Qed.

Lemma sep_cases (c : char) : sep c = true -> c = hyphen \/ c = slash.
Proof.
  unfold sep, one_of. intros H. apply orb_true_iff in H.
  destruct H as [H|H]; apply N.eqb_eq in H; auto.
Qed.

(** Every match of the date pattern is a run of six to ten digits and
    separators holding a separator. *)
Lemma date_match (w : str) (c : caps) :
  matches date_pattern w [] c ->
  6 <= List.length w <= 10 /\ forallb date_char w = true /\
  (In hyphen w \/ In slash w).
Proof.
  unfold date_pattern, times, between. cbn [cat]. intros H. inv_matches;
    repeat match goal with
           | H : forall h, Some _ = Some h -> _ |- _ =>
               specialize (H _ eq_refl)
           | H : forallb digit _ = true |- _ => apply digit_date_chars in H
           end;
    (split; [rewrite !length_app; simpl; lia|]);
    (split;
     [ rewrite !forallb_app; simpl;
       repeat match goal with
              | H : sep _ = true |- _ => apply sep_date_char in H
              end;
       repeat match goal with
              | H : _ = true |- _ => rewrite H
              end; reflexivity
     | match goal with
       | H : sep ?x = true |- _ =>
           destruct (sep_cases _ H) as [E|E]; rewrite E;
           [left | right]; repeat rewrite in_app_iff; simpl; tauto
       end ]).
Qed.

(** No match of the date pattern begins at a character that is not a
    digit. *)
Lemma date_dead (c : char) (s : str) :
  isdecimal c = false -> match_at date_pattern (c :: s) = None.
Proof.
  intros Hc. unfold match_at, date_pattern, times, between.
  cbn [cat run rep]. unfold digit. rewrite Hc. reflexivity.
Qed.

(** Four digits, a separator, two digits, a separator and two digits at the
    head of the text are matched by the first alternative, whatever
    follows. *)
Lemma match_at_iso (y m d post : str) (s1 s2 : char) :
  List.length y = 4 -> List.length m = 2 -> List.length d = 2 ->
  forallb isdecimal y = true -> forallb isdecimal m = true ->
  forallb isdecimal d = true -> sep s1 = true -> sep s2 = true ->
  match_at date_pattern (y ++ s1 :: m ++ s2 :: d ++ post) = Some (post, []).
Proof.
  intros Ly Lm Ld Hy Hm Hd H1 H2.
  unfold match_at, date_pattern, times, between. cbn [cat run].
  erewrite (@rep_take _ digit y _ 4 (Some 4));
    [reflexivity | exact Hy | lia | intros h [= <-]; lia
    | left; rewrite Ly; reflexivity |].
  cbn [run]. rewrite H1.
  erewrite (@rep_take _ digit m _ 1 (Some 2));
    [reflexivity | exact Hm | lia | intros h [= <-]; lia
    | left; rewrite Lm; reflexivity |].
  cbn [run]. rewrite H2.
  erewrite (@rep_take _ digit d _ 1 (Some 2));
    [reflexivity | exact Hd | lia | intros h [= <-]; lia
    | left; rewrite Ld; reflexivity |].
  reflexivity.
Qed.

End DateFacts.

Import DateFacts.

(** X7.  A date in the result is a piece of the input, six to ten
    characters long, made of digits and the separators [-] and [/] only,
    with at least one separator; it is stored as matched, not checked
    against the calendar. *)
Theorem incident_date_shape (text : str) (info : dict value) (v : value) :
  extract_key_info (Some text) = Ret info ->
  dict_get info k_incident_date = Some v ->
  date_value text v.
Proof.
  intros Hrun Hget. rewrite (@date_entry text info Hrun) in Hget.
  unfold findall in Hget. change (ngroups date_pattern) with 0 in Hget.
  pose proof (finditer_whole date_pattern text) as Hall.
  destruct (finditer date_pattern text) as [|[w c] l]; [discriminate|].
  cbn [map item_of whole] in Hget. inversion Hget; subst v.
  inversion Hall as [|? ? [M P] _]; subst. cbn [whole groups] in *.
  destruct (date_match M) as (Hlen & Hchars & Hsep).
  exists w. repeat split; auto; lia.
Qed.

(** X8.  On a text with neither [-] nor [/] the result has no date. *)
Theorem incident_date_needs_separator (text : str) :
  ~ In hyphen text -> ~ In slash text ->
  exists info,
    extract_key_info (Some text) = Ret info /\
    dict_get info k_incident_date = None.
Proof.
  intros Hh Hs.
  destruct (extract_key_info_shape text) as (info1 & _ & _ & Hrun).
  eexists. split; [exact Hrun|].
  rewrite (@date_entry text _ Hrun). unfold findall.
  rewrite (@findall_nil_without date_pattern text); [reflexivity|].
  intros w c M P. destruct (date_match M) as (_ & _ & [H|H]).
  - apply Hh. eapply piece_in; eauto.
  - apply Hs. eapply piece_in; eauto.
Qed.

(** X9.  When the first digit of the text opens four digits, a separator,
    two digits, a separator and two digits, exactly these ten characters are
    the date, even when more digits follow. *)
Theorem incident_date_first_iso (pre y m d post : str) (s1 s2 : char) :
  forallb (fun c => negb (isdecimal c)) pre = true ->
  List.length y = 4 -> List.length m = 2 -> List.length d = 2 ->
  forallb isdecimal y = true -> forallb isdecimal m = true ->
  forallb isdecimal d = true -> sep s1 = true -> sep s2 = true ->
  exists info,
    extract_key_info
      (Some (pre ++ (y ++ s1 :: m ++ s2 :: d) ++ post)) = Ret info /\
    dict_get info k_incident_date = Some (VStr (y ++ s1 :: m ++ s2 :: d)).
Proof.
  intros Hpre Ly Lm Ld Hy Hm Hd H1 H2.
  set (w := y ++ s1 :: m ++ s2 :: d).
  destruct (extract_key_info_shape (pre ++ w ++ post))
    as (info1 & _ & _ & Hrun).
  eexists. split; [exact Hrun|].
  rewrite (@date_entry _ _ Hrun). unfold findall, finditer.
  change (ngroups date_pattern) with 0.
  rewrite scan_dead_prefix.
  - assert (Hm0 : match_at date_pattern (w ++ post) = Some (post, [])).
    { unfold w. repeat (rewrite <- app_assoc; cbn [app]).
      apply match_at_iso; assumption. }
    destruct (w ++ post) as [|x s] eqn:E.
    { unfold w in E. destruct y; [discriminate Ly | discriminate E]. }
    cbn [scan]. rewrite Hm0. cbn [map item_of whole].
    rewrite <- E, firstn_consumed. reflexivity.
  - intros a c b ->. apply date_dead.
    rewrite forallb_app in Hpre. apply andb_true_iff in Hpre.
    destruct Hpre as [_ Hpre]. simpl in Hpre.
    apply andb_true_iff in Hpre. destruct Hpre as [Hc _].
    apply negb_true_iff in Hc. exact Hc.
Qed.

(** ** More on the keyword path *)

Module AnswerFacts.

Lemma first_with_counted (P : str -> bool) (taxonomy : dict (list str))
  (m : Z) (c : str) :
  first_with (counted P taxonomy) m = Some c ->
  exists kws, In (c, kws) taxonomy /\ hits P kws = m.
Proof.
  induction taxonomy as [|[c0 k0] tax IH]; simpl; [discriminate|].
  destruct (Z.eqb_spec (hits P k0) m) as [E|_].
  - intros [= <-]. exists k0; auto.
  - intros H. destruct (IH H) as (kws & Hin & Hm). exists kws; auto.
Qed.

Lemma values_counted (P : str -> bool) (taxonomy : dict (list str)) (m : Z) :
  In m (values (counted P taxonomy)) <->
  exists c kws, In (c, kws) taxonomy /\ hits P kws = m.
Proof.
  unfold values, counted. rewrite map_map. rewrite in_map_iff. split.
  - intros ([c kws] & Hm & Hin). exists c, kws. auto.
  - intros (c & kws & Hin & Hm). exists (c, kws). auto.
Qed.

Lemma first_with_attained (counts : list (str * Z)) (m : Z) :
  In m (values counts) -> exists c, first_with counts m = Some c.
Proof.
  induction counts as [|[c n] counts IH]; simpl; [tauto|].
  intros Hin. destruct (Z.eqb_spec n m) as [_|Hne]; [exists c; auto|].
  destruct Hin as [Heq|Hin]; [contradiction | exact (IH Hin)].
Qed.

(** The answer of the keyword path and the counts behind it. *)
Lemma keyword_match_answer_cases
  (lower : str -> str) (isalpha : str -> bool)
  (word_tokenize : str -> outcome (list str))
  (self : ComplaintClassifier) (text : str) :
  NoDup (keys (complaint_categories self)) ->
  complaint_categories self <> [] ->
  exists c,
    keyword_match lower isalpha word_tokenize self text = Ret (Some c) /\
    ((c = unclassified /\
      forall cat kws, In (cat, kws) (complaint_categories self) ->
                      hits (occurs lower text) kws = 0%Z) \/
     (exists kws,
         In (c, kws) (complaint_categories self) /\
         (0 < hits (occurs lower text) kws)%Z /\
         forall cat' kws', In (cat', kws') (complaint_categories self) ->
                           (hits (occurs lower text) kws'
                            <= hits (occurs lower text) kws)%Z)).
Proof.
  intros Hnd Hne. unfold keyword_match.
  rewrite (@word_counts_spec lower self text Hnd). cbn [bind].
  set (P := occurs lower text).
  destruct (@max_nonempty (values (counted P (complaint_categories self))))
    as (m & Hm & Hin & Hmax).
  { unfold values, counted.
    destruct (complaint_categories self); [congruence | discriminate]. }
  rewrite Hm. cbn [bind].
  assert (Hle : forall cat kws, In (cat, kws) (complaint_categories self) ->
                                (hits P kws <= m)%Z).
  { intros cat kws Hc. rewrite Forall_forall in Hmax. apply Hmax.
    apply values_counted. exists cat, kws. auto. }
  destruct (Z.eqb_spec m 0) as [Hz|Hnz].
  - eexists. split; [reflexivity|]. left. split; [reflexivity|].
    intros cat kws Hc. pose proof (Hle cat kws Hc).
    pose proof (hits_range P kws). lia.
  - destruct (@first_with_attained _ _ Hin) as (c & Hc).
    exists c. unfold items. rewrite Hc. split; [reflexivity|]. right.
    destruct (@first_with_counted _ _ _ _ Hc) as (kws & Hk & Hmk).
    exists kws. split; [exact Hk|]. rewrite Hmk. split.
    + pose proof (hits_range P kws). lia.
    + exact Hle.
Qed.

End AnswerFacts.

Import AnswerFacts.

Section KeywordAnswers.
Variable lower : str -> str.
Variable isalpha : str -> bool.
Variable word_tokenize : str -> outcome (list str).


(** X11.  With the zero-shot model off, two non-empty texts with the same
    lower-case form get the same answer. *)
Theorem classify_ignores_case (self : ComplaintClassifier) (t1 t2 : str) :
  use_transformer self = false -> t1 <> [] -> t2 <> [] ->
  lower t1 = lower t2 ->
  classify lower isalpha word_tokenize self (Some t1) =
  classify lower isalpha word_tokenize self (Some t2).
Proof.
  intros Hoff H1 H2 Hlow. unfold classify.
  destruct t1 as [|a t1]; [congruence|].
  destruct t2 as [|b t2]; [congruence|].
  cbn [truthy negb]. rewrite Hoff.
  unfold keyword_match, word_counts, count_category, occurs.
  rewrite Hlow. reflexivity.
Qed.

(** X12.  With the built-in categories the keyword path raises on no text:
    it answers one of the eight category names or the sentinel. *)
Theorem keyword_match_default_categories
  (self : ComplaintClassifier) (text : str) :
  complaint_categories self = default_categories ->
  exists c,
    keyword_match lower isalpha word_tokenize self text = Ret (Some c) /\
    (c = unclassified \/ In c (keys default_categories)).
Proof.
  intros Hdef.
  destruct (@keyword_match_answer_cases lower isalpha word_tokenize self text)
    as (c & Hrun & Hcases).
  - rewrite Hdef. apply distinct_nodup. vm_compute. reflexivity.
  - rewrite Hdef. discriminate.
  - exists c. split; [exact Hrun|].
    destruct Hcases as [[-> _]|(kws & Hin & _)]; [left; reflexivity|].
    right. rewrite <- Hdef. change c with (fst (c, kws)).
    apply in_map. exact Hin.
Qed.

End KeywordAnswers.

(** ** Order numbers *)

Module OrderFacts.
Import Mail TestData.

(** Every match of the order pattern is the prefix followed by eight
    digits. *)
Lemma order_match (w : str) (c : caps) :
  matches order_pattern w [] c ->
  exists d, w = u "ORD-" ++ d /\ List.length d = 8 /\
            forallb isdecimal d = true.
Proof.
  unfold order_pattern, times. cbn [cat]. intros H. inv_matches.
  match goal with
  | H : forall h, Some _ = Some h -> _ |- _ => specialize (H _ eq_refl)
  end.
  eexists. split; [reflexivity|]. split; [lia | assumption].
Qed.

Lemma order_dead (c : char) (s : str) :
  c <> 79%N -> match_at order_pattern (c :: s) = None.
Proof.
  intros Hc. unfold match_at, order_pattern, times. cbn [cat run].
  apply N.eqb_neq in Hc. rewrite Hc. reflexivity.
Qed.

Lemma match_at_order (d rest : str) :
  List.length d = 8 -> forallb isdecimal d = true ->
  match_at order_pattern (u "ORD-" ++ d ++ rest) = Some (rest, []).
Proof.
  intros Ld Hd. unfold match_at, order_pattern, times.
  change (u "ORD-" ++ d ++ rest)
    with (79 :: 82 :: 68 :: 45 :: d ++ rest)%N.
  cbn [cat run]. rewrite !N.eqb_refl.
  erewrite (@rep_take _ digit d rest 8 (Some 8));
    [reflexivity | exact Hd | lia | intros h [= <-]; lia
    | left; rewrite Ld; reflexivity | reflexivity].
Qed.

(** The order number that begins the text, when no capital O comes
    before it. *)
Lemma search_order (pre d rest : str) :
  ~ In 79%N pre -> List.length d = 8 -> forallb isdecimal d = true ->
  extract_order_number (Some (pre ++ u "ORD-" ++ d ++ rest)) =
  Ret (Some (u "ORD-" ++ d)).
Proof.
  intros Hpre Ld Hd. unfold extract_order_number, search, finditer.
  rewrite scan_dead_prefix.
  - pose proof (@match_at_order d rest Ld Hd) as Hm.
    change (u "ORD-" ++ d ++ rest)
      with (79 :: 82 :: 68 :: 45 :: d ++ rest)%N in *.
    cbn [scan]. rewrite Hm. cbn [whole].
    change (79 :: 82 :: 68 :: 45 :: d ++ rest)%N
      with ((79 :: 82 :: 68 :: 45 :: d) ++ rest)%N.
    rewrite firstn_consumed. reflexivity.
  - intros a c b ->. apply order_dead. intros ->. apply Hpre.
    apply in_or_app; right; left; reflexivity.
Qed.

Lemma ascii_digit (x : N) : (x < 10)%N -> isdecimal (48 + x)%N = true.
Proof.
  intros Hx. unfold isdecimal, to_decimal, decimal_zeros.
  cbn [decimal_in].
  replace ((48 <=? 48 + x)%N) with true by (symmetry; apply N.leb_le; lia).
  replace ((48 + x <? 48 + 10)%N) with true
    by (symmetry; apply N.ltb_lt; lia).
  reflexivity.
Qed.

Lemma div10_bounds (a lo hi : N) :
  (10 * lo <= a < 10 * hi)%N -> (lo <= a / 10 < hi)%N.
Proof.
  intros [Hlo Hhi]. split.
  - apply N.div_le_lower_bound; [discriminate | exact Hlo].
  - apply N.Div0.div_lt_upper_bound. exact Hhi.
Qed.

(** An eight-digit number is written with eight ASCII digits. *)
Lemma str_of_int_eight (n : N) :
  (10000000 <= n <= 99999999)%N ->
  List.length (str_of_int n) = 8 /\ forallb isdecimal (str_of_int n) = true.
Proof.
  intros Hn. unfold str_of_int.
  assert (Hlog : (23 <= N.log2 n)%N).
  { change 23%N with (N.log2 10000000). apply N.log2_le_mono. lia. }
  destruct (N.to_nat (N.log2 n)) as [|[|[|[|[|[|[|f]]]]]]] eqn:E; try lia.
  cbn [digits_of].
  destruct (@div10_bounds n 1000000 10000000) as [L1 U1]; [lia|].
  destruct (@div10_bounds (n / 10) 100000 1000000) as [L2 U2]; [lia|].
  destruct (@div10_bounds (n / 10 / 10) 10000 100000) as [L3 U3]; [lia|].
  destruct (@div10_bounds (n / 10 / 10 / 10) 1000 10000) as [L4 U4]; [lia|].
  destruct (@div10_bounds (n / 10 / 10 / 10 / 10) 100 1000) as [L5 U5];
    [lia|].
  destruct (@div10_bounds (n / 10 / 10 / 10 / 10 / 10) 10 100) as [L6 U6];
    [lia|].
  destruct (@div10_bounds (n / 10 / 10 / 10 / 10 / 10 / 10) 1 10)
    as [L7 U7]; [lia|].
  assert (H1 : (n / 10 =? 0)%N = false) by (apply N.eqb_neq; lia).
  assert (H2 : (n / 10 / 10 =? 0)%N = false) by (apply N.eqb_neq; lia).
  assert (H3 : (n / 10 / 10 / 10 =? 0)%N = false) by (apply N.eqb_neq; lia).
  assert (H4 : (n / 10 / 10 / 10 / 10 =? 0)%N = false)
    by (apply N.eqb_neq; lia).
  assert (H5 : (n / 10 / 10 / 10 / 10 / 10 =? 0)%N = false)
    by (apply N.eqb_neq; lia).
  assert (H6 : (n / 10 / 10 / 10 / 10 / 10 / 10 =? 0)%N = false)
    by (apply N.eqb_neq; lia).
  assert (H7 : (n / 10 / 10 / 10 / 10 / 10 / 10 / 10 =? 0)%N = false)
    by (apply N.eqb_neq; lia).
  assert (H8 : (n / 10 / 10 / 10 / 10 / 10 / 10 / 10 / 10 =? 0)%N = true).
  { apply N.eqb_eq. apply N.div_small. exact U7. }
  rewrite H1, H2, H3, H4, H5, H6, H7, H8.
  split; [reflexivity|].
  cbn [forallb].
  rewrite !ascii_digit by (apply N.mod_lt; discriminate).
  reflexivity.
Qed.

End OrderFacts.

Import Mail TestData OrderFacts.

(** X13.  An order number answered by [_extract_order_number] is a piece of
    the text made of [ORD-] and exactly eight digits. *)
Theorem order_number_shape (text o : str) :
  extract_order_number (Some text) = Ret (Some o) ->
  exists d, o = u "ORD-" ++ d /\ List.length d = 8 /\
            forallb isdecimal d = true /\ piece o text.
Proof.
  unfold extract_order_number, search. intros H.
  pose proof (finditer_whole order_pattern text) as Hall.
  destruct (finditer order_pattern text) as [|[w c] l]; [discriminate|].
  cbn [whole] in H. inversion H; subst o.
  inversion Hall as [|? ? [M P] _]; subst. cbn [whole groups] in *.
  destruct (@order_match _ _ M) as (d & -> & Ld & Hd).
  exists d. auto.
Qed.

(** X14.  When no capital O comes before it, [ORD-] followed by eight
    digits is the order number answered, whatever follows. *)
Theorem order_number_found (pre d rest : str) :
  ~ In 79%N pre -> List.length d = 8 -> forallb isdecimal d = true ->
  extract_order_number (Some (pre ++ u "ORD-" ++ d ++ rest)) =
  Ret (Some (u "ORD-" ++ d)).
Proof.
  intros Hpre Ld Hd. apply search_order; assumption.
Qed.

(** X15.  Every order number the test-data generator can produce is read
    back whole by [_extract_order_number]. *)
Theorem generated_order_number_round_trip (n : N) :
  (10000000 <= n <= 99999999)%N ->
  extract_order_number (Some (generate_order_number n)) =
  Ret (Some (generate_order_number n)).
Proof.
  intros Hn. destruct (@str_of_int_eight n Hn) as [Ld Hd].
  unfold generate_order_number.
  pose proof (@search_order [] (str_of_int n) []
                (fun H => H) Ld Hd) as H.
  cbn [app] in H. rewrite app_nil_r in H. exact H.
Qed.

(** ** The processing loop *)

Module TaskFacts.
Import Tasks.

Section Dicts.
Context {V : Type}.

Lemma get_in (d : dict V) (k : str) (v : V) :
  dict_get d k = Some v -> In (k, v) d.
Proof.
  induction d as [|[k0 v0] d IH]; simpl; [discriminate|].
  destruct (str_eqb k k0) eqn:E.
  - apply str_eqb_eq in E. subst. intros [= ->]. left; reflexivity.
  - intros H. right. exact (IH H).
Qed.

Lemma get_none (d : dict V) (k : str) :
  dict_get d k = None -> ~ In k (keys d).
Proof.
  induction d as [|[k0 v0] d IH]; simpl; [tauto|].
  destruct (str_eqb k k0) eqn:E; [discriminate|].
  intros H [Hk|Hk].
  - subst. rewrite str_eqb_refl in E. discriminate.
  - exact (IH H Hk).
Qed.

(** Unpacking leaves alone the keys it does not bring. *)
Lemma unpack_get_other (e acc : dict V) (k : str) :
  ~ In k (keys e) -> dict_get (unpack acc e) k = dict_get acc k.
Proof.
  revert acc; induction e as [|[k0 v0] e IH]; intros acc Hk; [reflexivity|].
  unfold unpack. cbn [fold_left fst snd]. fold (unpack (dict_set acc k0 v0) e).
  rewrite IH by (intros H; apply Hk; right; exact H).
  apply get_set_other. intros ->. apply Hk. left; reflexivity.
Qed.

(** Unpacking a dictionary stores each of its items. *)
Lemma unpack_get_in (e acc : dict V) (k : str) (v : V) :
  NoDup (keys e) -> In (k, v) e -> dict_get (unpack acc e) k = Some v.
Proof.
  revert acc; induction e as [|[k0 v0] e IH]; intros acc Hnd Hin;
    [destruct Hin|].
  inversion Hnd as [|? ? Hnot Hnd']; subst.
  unfold unpack. cbn [fold_left fst snd]. fold (unpack (dict_set acc k0 v0) e).
  destruct Hin as [Heq|Hin].
  - inversion Heq; subst. rewrite unpack_get_other by exact Hnot.
    apply get_set_same.
  - apply IH; assumption.
Qed.

Lemma unpack_copy (d : dict V) (k : str) :
  NoDup (keys d) -> dict_get (unpack [] d) k = dict_get d k.
Proof.
  intros Hnd. destruct (dict_get d k) as [v|] eqn:E.
  - apply unpack_get_in; [exact Hnd | apply get_in; exact E].
  - rewrite unpack_get_other by (apply get_none; exact E). reflexivity.
Qed.

End Dicts.

Lemma get_map {A B} (f : A -> B) (d : dict A) (k : str) :
  dict_get (map (fun kv => (fst kv, f (snd kv))) d) k =
  option_map f (dict_get d k).
Proof.
  induction d as [|[k0 v0] d IH]; simpl; [reflexivity|].
  destruct (str_eqb k k0); [reflexivity | exact IH].
Qed.

Lemma keys_map {A B} (f : A -> B) (d : dict A) :
  keys (map (fun kv => (fst kv, f (snd kv))) d) = keys d.
Proof. unfold keys. rewrite map_map. reflexivity. Qed.

Lemma task_keys_fresh :
  ~ In k_complaint_type info_keys /\ ~ In k_sentiment_score info_keys /\
  ~ In k_sentiment_label info_keys /\
  k_complaint_type <> k_sentiment_score /\
  k_complaint_type <> k_sentiment_label /\
  k_sentiment_score <> k_sentiment_label.
Proof.
  repeat split; try (vm_compute; discriminate);
    intros H; simpl in H;
    repeat (destruct H as [H|H]; [vm_compute in H; discriminate|]);
    exact H.
Qed.

Section OneTurn.
Variable lower : str -> str.
Variable isalpha : str -> bool.
Variable word_tokenize : str -> outcome (list str).
Variable analyze : option str -> Q * str.

(** One turn of the loop on a complaint with a string content. *)
Lemma process_one_run
  (self : ComplaintClassifier) (complaint : dict (option str))
  (text : str) (category : option str) :
  NoDup (keys complaint) ->
  dict_get complaint k_content = Some (Some text) ->
  classify lower isalpha word_tokenize self (Some text) = Ret category ->
  exists record,
    process_one lower isalpha word_tokenize analyze self complaint
      = Ret record /\
    dict_get record k_complaint_type = Some (option_map VStr category) /\
    (exists sev, dict_get record k_severity = Some (Some (VStr sev))) /\
    forall k,
      ~ In k (k_complaint_type :: k_sentiment_score :: k_sentiment_label
              :: info_keys) ->
      dict_get record k = option_map (option_map VStr) (dict_get complaint k).
Proof.
  intros Hnd Hcontent Hclass.
  destruct task_keys_fresh as (F1 & F2 & F3 & N1 & N2 & N3).
  destruct (extract_key_info_shape text) as (info1 & _ & _ & Hrun).
  destruct (@result_keys text _ Hrun) as [Hincl Hndi].
  unfold process_one, subscript. rewrite Hcontent. cbn [bind].
  rewrite Hclass. cbn [bind].
  destruct (analyze (Some text)) as [score label].
  rewrite Hrun. cbn [bind].
  eexists. split; [reflexivity|].
  set (info := dict_set (extract_date text info1) k_severity _) in *.
  set (lifted := map (fun kv => (fst kv, Some (snd kv))) info).
  assert (Hkeys : keys lifted = keys info) by apply keys_map.
  assert (Hfresh : forall k, ~ In k info_keys -> ~ In k (keys lifted)).
  { intros k Hk H. rewrite Hkeys in H. apply Hk. apply Hincl. exact H. }
  split; [|split].
  - rewrite unpack_get_other by (apply Hfresh; exact F1).
    rewrite get_set_other by exact N2.
    rewrite get_set_other by exact N1.
    apply get_set_same.
  - eexists. apply unpack_get_in.
    + unfold obj. rewrite Hkeys. exact Hndi.
    + apply get_in. unfold lifted. rewrite get_map. unfold info.
      rewrite get_set_same. reflexivity.
  - intros k Hk.
    rewrite unpack_get_other
      by (apply Hfresh; intros H; apply Hk; do 3 right; exact H).
    rewrite !get_set_other
      by (intros E; apply Hk; subst k; simpl; tauto).
    rewrite unpack_copy by (rewrite keys_map; exact Hnd).
    apply get_map.
Qed.

End OneTurn.

End TaskFacts.

Import Tasks TaskFacts.

Section ProcessComplaints.
Variable lower : str -> str.
Variable isalpha : str -> bool.
Variable word_tokenize : str -> outcome (list str).
Variable analyze : option str -> Q * str.

(** X16.  For a complaint whose content is a string on which [classify]
    returns, one turn of the loop returns a record in which the category is
    the answer of [classify], a severity is present, and the fields of the
    complaint outside the seven computed keys, its [id] and [content] among
    them, are carried over unchanged. *)
Theorem process_one_record
  (self : ComplaintClassifier) (complaint : dict (option str))
  (text : str) (category : option str) :
  NoDup (keys complaint) ->
  dict_get complaint k_content = Some (Some text) ->
  classify lower isalpha word_tokenize self (Some text) = Ret category ->
  exists record,
    process_one lower isalpha word_tokenize analyze self complaint
      = Ret record /\
    dict_get record k_complaint_type = Some (option_map VStr category) /\
    (exists sev, dict_get record k_severity = Some (Some (VStr sev))) /\
    dict_get record k_content = Some (Some (VStr text)) /\
    forall k,
      ~ In k (k_complaint_type :: k_sentiment_score :: k_sentiment_label
              :: info_keys) ->
      dict_get record k = option_map (option_map VStr) (dict_get complaint k).
Proof.
  intros Hnd Hcontent Hclass.
  destruct (@process_one_run lower isalpha word_tokenize analyze self
              complaint text category Hnd Hcontent Hclass)
    as (record & Hrun & Htype & Hsev & Hkeep).
  exists record. repeat split; auto.
  rewrite Hkeep, Hcontent; [reflexivity|].
  intros H. simpl in H.
  repeat (destruct H as [H|H]; [vm_compute in H; discriminate|]).
  exact H.
Qed.

(** X17.  One turn of the loop raises [KeyError] for a complaint without a
    content field, and [TypeError] for one whose content is [None]:
    [classify] answers the sentinel for it, and then [extract_key_info]
    raises. *)
Theorem process_one_bad_content
  (self : ComplaintClassifier) (complaint : dict (option str)) :
  (dict_get complaint k_content = None ->
   process_one lower isalpha word_tokenize analyze self complaint
     = Raise KeyError) /\
  (dict_get complaint k_content = Some None ->
   process_one lower isalpha word_tokenize analyze self complaint
     = Raise TypeError).
Proof.
  split; intros H; unfold process_one, subscript; rewrite H; cbn [bind].
  - reflexivity.
  - cbn [classify bind]. destruct (analyze None). reflexivity.
Qed.

(** X18.  When every complaint has a string content on which [classify]
    returns, the loop returns one record per complaint, in order, each
    carrying over the fields of its complaint outside the seven computed
    keys. *)
Theorem process_all_records
  (self : ComplaintClassifier) (complaints : list (dict (option str))) :
  Forall (fun complaint =>
            NoDup (keys complaint) /\
            exists text category,
              dict_get complaint k_content = Some (Some text) /\
              classify lower isalpha word_tokenize self (Some text)
                = Ret category) complaints ->
  exists records,
    process_all lower isalpha word_tokenize analyze self complaints
      = Ret records /\
    Forall2 (fun complaint record =>
               forall k,
                 ~ In k (k_complaint_type :: k_sentiment_score
                         :: k_sentiment_label :: info_keys) ->
                 dict_get record k =
                 option_map (option_map VStr) (dict_get complaint k))
            complaints records.
Proof.
  intros Hall. unfold process_all.
  assert (Hacc : forall acc,
    exists records,
      for_each complaints
        (fun processed complaint =>
           bind (process_one lower isalpha word_tokenize analyze self
                   complaint)
                (fun record => Ret (processed ++ [record]))) acc
        = Ret (acc ++ records) /\
      Forall2 (fun complaint record =>
                 forall k,
                   ~ In k (k_complaint_type :: k_sentiment_score
                           :: k_sentiment_label :: info_keys) ->
                   dict_get record k =
                   option_map (option_map VStr) (dict_get complaint k))
              complaints records).
  { induction Hall as [|c cs (Hnd & text & category & Hc & Hk) _ IH];
      intros acc.
    - exists []. rewrite app_nil_r. split; [reflexivity | constructor].
    - destruct (@process_one_run lower isalpha word_tokenize analyze
                  self c text category Hnd Hc Hk)
        as (record & Hrun & _ & _ & Hkeep).
      cbn [for_each]. rewrite Hrun. cbn [bind].
      destruct (IH (acc ++ [record])) as (records & Hrest & Hall2).
      exists (record :: records). rewrite Hrest, <- app_assoc.
      split; [reflexivity | constructor; assumption]. }
  destruct (Hacc []) as (records & Hrun & Hall2).
  exists records. auto.
Qed.

End ProcessComplaints.

(** *** The further properties at sample inputs *)

Import Samples.

Lemma absent (c : char) (s : str) :
  forallb (other_than c) s = true -> ~ In c s.
Proof. apply other_than_all. Qed.

Lemma product_name_is_quoted_witness :
  product_value order_text (VStr (u "iPhone 13")).
Proof.
  apply (@product_name_is_quoted order_text order_info).
  - vm_compute. reflexivity.
  - vm_compute. reflexivity.
Defined.

Lemma product_name_needs_quotes_witness :
  exists info,
    extract_key_info (Some uppercase_text) = Ret info /\
    dict_get info k_product_name = None.
Proof.
  apply (@product_name_needs_quotes uppercase_text).
  - apply absent. vm_compute. reflexivity.
  - apply absent. vm_compute. reflexivity.
Defined.

Lemma product_name_first_quoted_witness :
  exists info,
    extract_key_info
      (Some (u "订单号 ORD-12345 购买 " ++ quoted quote (u "iPhone 13")
             ++ u " 花费 $99.99")) = Ret info /\
    dict_get info k_product_name = Some (VStr (u "iPhone 13")).
Proof.
  apply (@product_name_first_quoted (u "订单号 ORD-12345 购买 ")
           (u "iPhone 13") (u " 花费 $99.99")).
  - apply absent. vm_compute. reflexivity.
  - apply absent. vm_compute. reflexivity.
  - vm_compute. discriminate.
  - apply absent. vm_compute. reflexivity.
Defined.

Lemma amount_needs_currency_witness :
  exists info,
    extract_key_info (Some (u "等了 15 天, 订单 12345")) = Ret info /\
    dict_get info k_amount = None.
Proof.
  apply (@amount_needs_currency (u "等了 15 天, 订单 12345")).
  - apply absent. vm_compute. reflexivity.
  - apply absent. vm_compute. reflexivity.
Defined.


Lemma incident_date_shape_witness :
  date_value order_text (VStr (u "2024-01-15")).
Proof.
  apply (@incident_date_shape order_text order_info).
  - vm_compute. reflexivity.
  - vm_compute. reflexivity.
Defined.

Lemma incident_date_needs_separator_witness :
  exists info,
    extract_key_info (Some late_delivery) = Ret info /\
    dict_get info k_incident_date = None.
Proof.
  apply (@incident_date_needs_separator late_delivery).
  - apply absent. vm_compute. reflexivity.
  - apply absent. vm_compute. reflexivity.
Defined.

Lemma incident_date_first_iso_witness :
  exists info,
    extract_key_info
      (Some (u "日期 " ++ (u "2024" ++ hyphen :: u "01" ++ hyphen :: u "15")
             ++ u "5")) = Ret info /\
    dict_get info k_incident_date =
    Some (VStr (u "2024" ++ hyphen :: u "01" ++ hyphen :: u "15")).
Proof.
  apply (@incident_date_first_iso (u "日期 ") (u "2024") (u "01") (u "15")
           (u "5") hyphen hyphen); vm_compute; reflexivity.
Defined.


Lemma classify_ignores_case_witness :
  classify ascii_lower letters_only no_punkt
    (keyword_only default_categories) (Some (u "APP 崩溃")) =
  classify ascii_lower letters_only no_punkt
    (keyword_only default_categories) (Some (u "app 崩溃")).
Proof.
  apply (@classify_ignores_case ascii_lower letters_only no_punkt
           (keyword_only default_categories)).
  - reflexivity.
  - vm_compute. discriminate.
  - vm_compute. discriminate.
  - vm_compute. reflexivity.
Defined.

Lemma keyword_match_default_categories_witness :
  exists c,
    keyword_match ascii_lower letters_only no_punkt
      (keyword_only default_categories) (u "hello") = Ret (Some c) /\
    (c = unclassified \/ In c (keys default_categories)).
Proof.
  apply (@keyword_match_default_categories ascii_lower letters_only no_punkt
           (keyword_only default_categories) (u "hello")).
  reflexivity.
Defined.

Lemma order_number_shape_witness :
  exists d, u "ORD-12345678" = u "ORD-" ++ d /\ List.length d = 8 /\
            forallb isdecimal d = true /\
            piece (u "ORD-12345678") (u "订单 ORD-123456789 未到").
Proof.
  apply (@order_number_shape (u "订单 ORD-123456789 未到") (u "ORD-12345678")).
  vm_compute. reflexivity.
Defined.

Lemma order_number_found_witness :
  extract_order_number
    (Some (u "订单 " ++ u "ORD-" ++ u "12345678" ++ u "9 未到")) =
  Ret (Some (u "ORD-" ++ u "12345678")).
Proof.
  apply (@order_number_found (u "订单 ") (u "12345678") (u "9 未到")).
  - apply absent. vm_compute. reflexivity.
  - reflexivity.
  - vm_compute. reflexivity.
Defined.

Lemma generated_order_number_round_trip_witness :
  extract_order_number (Some (generate_order_number 31415926)) =
  Ret (Some (generate_order_number 31415926)).
Proof.
  apply (@generated_order_number_round_trip 31415926%N).
  split; vm_compute; discriminate.
Defined.

Lemma process_one_record_witness :
  exists record,
    process_one ascii_lower letters_only no_punkt neutral
      (keyword_only two_categories) sample_complaint = Ret record /\
    dict_get record k_complaint_type = Some (Some (VStr (u "物流延迟"))).
Proof.
  destruct (@process_one_record ascii_lower letters_only no_punkt neutral
              (keyword_only two_categories) sample_complaint late_delivery
              (Some (u "物流延迟")))
    as (record & Hrun & Htype & _).
  - apply distinct_nodup. vm_compute. reflexivity.
  - vm_compute. reflexivity.
  - vm_compute. reflexivity.
  - exists record. split; [exact Hrun | exact Htype].
Defined.

Lemma process_one_bad_content_witness :
  process_one ascii_lower letters_only no_punkt neutral
    (keyword_only two_categories) unread_complaint = Raise TypeError.
Proof.
  apply (proj2 (@process_one_bad_content ascii_lower letters_only no_punkt
                  neutral (keyword_only two_categories) unread_complaint)).
  vm_compute. reflexivity.
Defined.

Lemma process_all_records_witness :
  exists records,
    process_all ascii_lower letters_only no_punkt neutral
      (keyword_only two_categories) [sample_complaint; sample_complaint]
      = Ret records /\
    List.length records = 2.
Proof.
  destruct (@process_all_records ascii_lower letters_only no_punkt neutral
              (keyword_only two_categories)
              [sample_complaint; sample_complaint])
    as (records & Hrun & Hall).
  - assert (Hgood :
      NoDup (keys sample_complaint) /\
      exists text category,
        dict_get sample_complaint k_content = Some (Some text) /\
        classify ascii_lower letters_only no_punkt
          (keyword_only two_categories) (Some text) = Ret category).
    { split; [apply distinct_nodup; vm_compute; reflexivity|].
      exists late_delivery, (Some (u "物流延迟")).
      split; vm_compute; reflexivity. }
    constructor; [exact Hgood|]. constructor; [exact Hgood | constructor].
  - exists records. split; [exact Hrun|].
    apply Forall2_length in Hall. symmetry. exact Hall.
Defined.

(** ** Amounts before the yuan word *)

Module YuanFacts.
Import FloatFacts.

Lemma space_not_decimal (c : char) : isspace c = true -> isdecimal c = false.
Proof.
  intros Hs. destruct (isdecimal c) eqn:E; [|reflexivity].
  rewrite (decimal_not_space _ E) in Hs. discriminate.
Qed.

(** The digits a text begins with are determined by the text. *)
Lemma digits_align (a b ra rb : str) :
  a ++ ra = b ++ rb ->
  forallb isdecimal a = true -> forallb isdecimal b = true ->
  stops_digits ra -> stops_digits rb ->
  a = b /\ ra = rb.
Proof.
  revert b; induction a as [|x a IH]; intros [|y b] Heq Ha Hb Hra Hrb;
    simpl in *.
  - auto.
  - subst ra. simpl in Hra. apply andb_true_iff in Hb. destruct Hb. congruence.
  - subst rb. simpl in Hrb. apply andb_true_iff in Ha. destruct Ha. congruence.
  - inversion Heq; subst. apply andb_true_iff in Ha, Hb.
    destruct Ha as [_ Ha], Hb as [_ Hb].
    destruct (IH b H1 Ha Hb Hra Hrb) as [-> ->]. auto.
Qed.

(** The decimal of the amount pattern: digits, then nothing or a point and
    exactly two digits. *)
Lemma decimal_parts (w : str) (c c' : caps) :
  matches decimal w c c' ->
  c' = c /\
  exists ip fp,
    w = ip ++ fp /\ ip <> [] /\ forallb isdecimal ip = true /\
    (fp = [] \/ exists f, fp = point :: f /\ List.length f = 2 /\
                          forallb isdecimal f = true).
Proof.
  unfold decimal, plus, times. intros H. inv_matches;
    repeat match goal with
           | H : forall h, Some _ = Some h -> _ |- _ =>
               specialize (H _ eq_refl)
           end;
    (split; [reflexivity|]).
  - eexists; eexists. split; [reflexivity|].
    split; [intros ->; simpl in *; lia|]. split; [assumption|].
    right. eexists. split; [reflexivity|]. split; [lia | assumption].
  - eexists; exists []. split; [reflexivity|].
    split; [intros ->; simpl in *; lia|]. split; [assumption|].
    left; reflexivity.
Qed.

Lemma stops_after_decimal (fp sp tail : str) (c : char) :
  (fp = [] \/ exists f, fp = point :: f /\ List.length f = 2 /\
                        forallb isdecimal f = true) ->
  forallb space sp = true -> isdecimal c = false ->
  stops_digits (fp ++ sp ++ c :: tail).
Proof.
  intros [->|(f & -> & _)] Hsp Hc; [|reflexivity].
  destruct sp as [|x sp]; [exact Hc|].
  simpl in Hsp. apply andb_true_iff in Hsp. destruct Hsp as [Hx _].
  simpl. apply space_not_decimal. exact Hx.
Qed.


End YuanFacts.

Module YuanMatch.
Import FloatFacts YuanFacts.

Lemma point_facts :
  isdecimal point = false /\ isspace point = false /\
  isdecimal yuan = false /\ isspace yuan = false /\
  isdecimal mei = false /\ isdecimal dollar = false.
Proof. repeat split; vm_compute; reflexivity. Qed.

(** The second and third alternatives, read declaratively. *)
Lemma dollar_word_shape (w : str) (c : caps) :
  matches (cat [Grp 2 decimal; star space; Lit mei] (Lit yuan)) w [] c ->
  exists ip fp sp,
    w = ip ++ fp ++ sp ++ mei :: [yuan] /\ ip <> [] /\
    forallb isdecimal ip = true /\
    (fp = [] \/ exists f, fp = point :: f /\ List.length f = 2 /\
                          forallb isdecimal f = true) /\
    forallb space sp = true.
Proof.
  unfold star. cbn [cat]. intros H. inv_matches.
  match goal with
  | H : matches decimal _ _ _ |- _ =>
      destruct (decimal_parts H) as (_ & ip & fp & -> & Hne & Hip & Hfp)
  end.
  rewrite <- !app_assoc. cbn [app].
  exists ip, fp. eexists. repeat split; eauto.
Qed.

Lemma yuan_word_shape (w : str) (c : caps) :
  matches (cat [Grp 3 decimal; star space] (Lit yuan)) w [] c ->
  exists ip fp sp,
    w = ip ++ fp ++ sp ++ [yuan] /\ ip <> [] /\
    forallb isdecimal ip = true /\
    (fp = [] \/ exists f, fp = point :: f /\ List.length f = 2 /\
                          forallb isdecimal f = true) /\
    forallb space sp = true /\ c = [(3, ip ++ fp)].
Proof.
  unfold star. cbn [cat]. intros H. inv_matches.
  match goal with
  | H : matches decimal _ _ _ |- _ =>
      destruct (decimal_parts H) as (-> & ip & fp & -> & Hne & Hip & Hfp)
  end.
  rewrite <- !app_assoc. cbn [app].
  exists ip, fp. eexists. repeat split; eauto.
Qed.

(** After the digits of a decimal and a point that no two digits follow,
    neither currency word can be reached. *)
Lemma no_word_after_point (ip fp sp word rest t : str) (c0 : char) :
  (fp = [] \/ exists f, fp = point :: f /\ List.length f = 2 /\
                        forallb isdecimal f = true) ->
  forallb space sp = true ->
  word = c0 :: t -> c0 <> point ->
  forall d1 post,
    isdecimal d1 = true ->
    fp ++ sp ++ word ++ rest = point :: d1 :: yuan :: post -> False.
Proof.
  destruct point_facts as (Hp & Hsp & Hy & _).
  intros Hfp Hspace -> Hc0 d1 post Hd1 Heq.
  destruct Hfp as [->|(f & -> & Lf & Hf)].
  - destruct sp as [|x sp]; simpl in Heq; inversion Heq; subst.
    + congruence.
    + assert (Hx : space point = true).
      { cbn [forallb] in Hspace. apply andb_true_iff in Hspace. tauto. }
      unfold space in Hx. congruence.
  - destruct f as [|a [|b [|? ?]]]; try discriminate Lf.
    simpl in Heq. inversion Heq; subst.
    cbn [forallb] in Hf. rewrite Hy in Hf. rewrite !andb_false_r in Hf.
    discriminate.
Qed.

Lemma dollar_first_shape (w : str) (c : caps) :
  matches (cat [Lit dollar; star space] (Grp 1 decimal)) w [] c ->
  exists t, w = dollar :: t.
Proof.
  cbn [cat]. intros H.
  inversion H as [| |r1 r2 w1 w2 c0 c1 c2 H1 H2| | | | | |]; subst.
  inversion H1; subst. eexists. reflexivity.
Qed.

Lemma amount_alternatives (w : str) (c : caps) :
  matches amount_pattern w [] c ->
  matches (cat [Lit dollar; star space] (Grp 1 decimal)) w [] c \/
  matches (cat [Grp 2 decimal; star space; Lit mei] (Lit yuan)) w [] c \/
  matches (cat [Grp 3 decimal; star space] (Lit yuan)) w [] c.
Proof.
  unfold amount_pattern. intros M.
  inversion M as [| | |r1 r2 w0 c0 c1 M1|r1 r2 w0 c0 c1 M1| | | |]; subst;
    [left; exact M1|].
  inversion M1 as [| | |r1 r2 w0 c0 c1 M2|r1 r2 w0 c0 c1 M2| | | |]; subst;
    [right; left; exact M2 | right; right; exact M2].
Qed.

(** No match begins inside digits that a point and a single digit
    follow. *)
Lemma one_digit_fraction_dead (b post : str) (d1 : char) :
  b <> [] -> forallb isdecimal b = true -> isdecimal d1 = true ->
  match_at amount_pattern (b ++ point :: d1 :: yuan :: post) = None.
Proof.
  destruct point_facts as (Hp & Hsp & Hy & Hsy & Hm & Hdol).
  intros Hne Hb Hd1.
  destruct (match_at amount_pattern (b ++ point :: d1 :: yuan :: post))
    as [[rest c]|] eqn:E; [exfalso | reflexivity].
  destruct (match_at_sound _ _ E) as (w & Hw & M).
  destruct (amount_alternatives M) as [M1|[M2|M3]].
  - destruct (dollar_first_shape M1) as (t & ->).
    destruct b as [|x b]; [congruence|]. simpl in Hw, Hb.
    inversion Hw; subst. rewrite Hdol in Hb. discriminate.
  - destruct (dollar_word_shape M2)
      as (ip & fp & sp & -> & Hi & Hip & Hfp & Hspace).
    rewrite <- !app_assoc in Hw.
    destruct (@digits_align b ip (point :: d1 :: yuan :: post)
                (fp ++ sp ++ (mei :: [yuan]) ++ rest) Hw Hb Hip Hp)
      as [_ Hrest].
    { apply (@stops_after_decimal fp sp ([yuan] ++ rest) mei Hfp Hspace Hm). }
    symmetry in Hrest.
    apply (@no_word_after_point ip fp sp (mei :: [yuan]) rest [yuan] mei
             Hfp Hspace eq_refl) with (d1 := d1) (post := post);
      [vm_compute; discriminate | exact Hd1 | exact Hrest].
  - destruct (yuan_word_shape M3)
      as (ip & fp & sp & -> & Hi & Hip & Hfp & Hspace & _).
    rewrite <- !app_assoc in Hw.
    destruct (@digits_align b ip (point :: d1 :: yuan :: post)
                (fp ++ sp ++ [yuan] ++ rest) Hw Hb Hip Hp)
      as [_ Hrest].
    { apply (@stops_after_decimal fp sp rest yuan Hfp Hspace Hy). }
    symmetry in Hrest.
    apply (@no_word_after_point ip fp sp [yuan] rest [] yuan
             Hfp Hspace eq_refl) with (d1 := d1) (post := post);
      [vm_compute; discriminate | exact Hd1 | exact Hrest].
Qed.

End YuanMatch.


Module YuanFirst.
Import FloatFacts YuanFacts YuanMatch.

(** What follows the decimal when the yuan word closes the match. *)
Lemma yuan_closes (post : str) (c : caps) :
  run (Cat (star space) (Lit yuan)) (yuan :: post) c
      (fun s' c' => Some (s', c')) = Some (post, c).
Proof.
  destruct point_facts as (_ & _ & _ & Hsy & _).
  unfold star. cbn [run rep]. unfold space. rewrite Hsy. cbn [andb].
  rewrite N.eqb_refl. reflexivity.
Qed.

(** The third alternative on a decimal standing right before the yuan
    word. *)
Lemma yuan_word_matches (ip fp post : str) :
  ip <> [] -> forallb isdecimal ip = true ->
  (fp = [] \/ exists f, fp = point :: f /\ List.length f = 2 /\
                        forallb isdecimal f = true) ->
  run (cat [Grp 3 decimal; star space] (Lit yuan))
      (ip ++ fp ++ yuan :: post) [] (fun s' c' => Some (s', c'))
  = Some (post, [(3, ip ++ fp)]).
Proof.
  destruct point_facts as (Hp & Hsp & Hy & Hsy & Hm & Hdol).
  intros Hne Hip Hfp. cbn [cat run]. unfold decimal, plus, times.
  cbn [run].
  assert (Hlen : 1 <= List.length ip)
    by (destruct ip; [congruence | simpl; lia]).
  destruct Hfp as [->|(f & -> & Lf & Hf)]; cbn [app].
  - erewrite (@rep_take _ digit ip (yuan :: post) 1 None);
      [reflexivity | exact Hip | exact Hlen | discriminate
      | right; exact Hy |].
    cbn [run]. change (yuan =? point)%N with false. cbn iota.
    rewrite firstn_consumed, app_nil_r.
    pose proof (yuan_closes post [(3, ip)]) as Hy'.
    cbn [run] in Hy'. exact Hy'.
  - assert (Hcut :
      firstn (List.length (ip ++ point :: f ++ yuan :: post)
              - List.length (yuan :: post))
             (ip ++ point :: f ++ yuan :: post) = ip ++ point :: f).
    { replace (ip ++ point :: f ++ yuan :: post)
        with ((ip ++ point :: f) ++ yuan :: post)
        by (rewrite <- app_assoc; reflexivity).
      apply firstn_consumed. }
    erewrite (@rep_take _ digit ip (point :: f ++ yuan :: post) 1 None);
      [reflexivity | exact Hip | exact Hlen | discriminate
      | right; exact Hp |].
    cbn [run]. rewrite N.eqb_refl.
    erewrite (@rep_take _ digit f (yuan :: post) 2 (Some 2));
      [reflexivity | exact Hf | lia | intros h [= <-]; lia
      | left; rewrite Lf; reflexivity |].
    rewrite Hcut.
    pose proof (yuan_closes post [(3, ip ++ point :: f)]) as Hy'.
    cbn [run] in Hy'. exact Hy'.
Qed.

(** A decimal right before the yuan word is not followed by the dollar
    word. *)
Lemma dollar_word_fails (ip fp post : str) :
  ip <> [] -> forallb isdecimal ip = true ->
  (fp = [] \/ exists f, fp = point :: f /\ List.length f = 2 /\
                        forallb isdecimal f = true) ->
  run (cat [Grp 2 decimal; star space; Lit mei] (Lit yuan))
      (ip ++ fp ++ yuan :: post) [] (fun s' c' => Some (s', c')) = None.
Proof.
  destruct point_facts as (Hp & Hsp & Hy & Hsy & Hm & Hdol).
  intros Hne Hip Hfp.
  destruct (run _ _ _ _) as [[rest c]|] eqn:E; [exfalso | reflexivity].
  destruct (run_sound _ _ _ _ E) as (w & s' & c' & Hw & M & _).
  destruct (dollar_word_shape M)
    as (ip' & fp' & sp & -> & Hi' & Hip' & Hfp' & Hspace).
  rewrite <- !app_assoc in Hw.
  destruct (@digits_align ip ip' (fp ++ yuan :: post)
              (fp' ++ sp ++ (mei :: [yuan]) ++ s') Hw Hip Hip')
    as [_ Hrest].
  { destruct Hfp as [->|(f & -> & _)]; [exact Hy | exact Hp]. }
  { eapply (@stops_after_decimal fp' sp ([yuan] ++ s') mei); eauto. }
  assert (Hword : forall t, sp ++ (mei :: [yuan]) ++ s' = yuan :: t -> False).
  { intros t Ht. destruct sp as [|x sp]; simpl in Ht; inversion Ht; subst.
    assert (Hx : space yuan = true).
    { cbn [forallb] in Hspace. apply andb_true_iff in Hspace. tauto. }
    unfold space in Hx. congruence. }
  destruct Hfp as [->|(f & -> & Lf & Hf)];
    destruct Hfp' as [->|(f' & -> & Lf' & Hf')]; cbn [app] in Hrest.
  - eapply Hword. symmetry. exact Hrest.
  - inversion Hrest.
  - destruct sp as [|x sp]; simpl in Hrest; inversion Hrest; subst.
    assert (Hx : space point = true).
    { cbn [forallb] in Hspace. apply andb_true_iff in Hspace. tauto. }
    unfold space in Hx. congruence.
  - inversion Hrest as [Htail].
    destruct f as [|a [|b [|? ?]]]; try discriminate Lf.
    destruct f' as [|a' [|b' [|? ?]]]; try discriminate Lf'.
    simpl in Htail. injection Htail as _ _ Ht.
    apply (Hword post). symmetry. exact Ht.
Qed.

(** The first match on a decimal standing right before the yuan word. *)
Lemma match_at_yuan (ip fp post : str) :
  ip <> [] -> forallb isdecimal ip = true ->
  (fp = [] \/ exists f, fp = point :: f /\ List.length f = 2 /\
                        forallb isdecimal f = true) ->
  match_at amount_pattern (ip ++ fp ++ yuan :: post)
  = Some (post, [(3, ip ++ fp)]).
Proof.
  destruct point_facts as (Hp & Hsp & Hy & Hsy & Hm & Hdol).
  intros Hne Hip Hfp. unfold match_at, amount_pattern.
  cbn [run].
  rewrite (@dollar_word_fails ip fp post Hne Hip Hfp).
  rewrite (@yuan_word_matches ip fp post Hne Hip Hfp).
  destruct ip as [|x ip]; [congruence|]. cbn [app cat run].
  simpl in Hip. apply andb_true_iff in Hip. destruct Hip as [Hx _].
  destruct (N.eqb_spec x dollar) as [->|_]; [congruence | reflexivity].
Qed.

End YuanFirst.

Module YuanAmount.
Import FloatFacts YuanFacts YuanMatch YuanFirst.

Lemma dead_before_digits (pre : str) (tail : str) :
  ~ In dollar pre -> forallb (fun c => negb (isdecimal c)) pre = true ->
  forall a c b, pre = a ++ c :: b ->
                match_at amount_pattern (c :: b ++ tail) = None.
Proof.
  intros Hd Hpre a c b ->. apply amount_dead.
  - intros ->. apply Hd. apply in_or_app; right; left; reflexivity.
  - rewrite forallb_app in Hpre. apply andb_true_iff in Hpre.
    destruct Hpre as [_ Hpre]. simpl in Hpre.
    apply andb_true_iff in Hpre. destruct Hpre as [Hc _].
    apply negb_true_iff in Hc. exact Hc.
Qed.

(** The amount stored when the first match of the amount pattern holds
    [numeral] in its third group. *)
Lemma amount_from_third_group (text numeral : str) (q : Q) :
  (exists l m, finditer amount_pattern text
               = Found m [(3, numeral)] :: l) ->
  numeral <> [] -> float_str numeral = Ret q ->
  exists info,
    extract_key_info (Some text) = Ret info /\
    dict_get info k_amount = Some (VFloat q).
Proof.
  intros (l & m & Hfind) Hne Hq.
  destruct (extract_key_info_shape text) as (info1 & _ & _ & Hrun).
  eexists. split; [exact Hrun|].
  destruct (@amount_entry text _ Hrun) as (info2 & Hloop & ->).
  unfold findall in Hloop. rewrite Hfind in Hloop.
  change (ngroups amount_pattern) with 3 in Hloop.
  cbn [map] in Hloop. unfold item_of at 1 in Hloop.
  cbn [seq map group_text group groups Nat.eqb] in Hloop.
  cbn [amount_loop amount_of_tuple truthy] in Hloop.
  destruct numeral as [|x numeral]; [congruence|].
  cbn [truthy float] in Hloop. rewrite Hq in Hloop.
  cbn [bind] in Hloop. unfold has_key in Hloop.
  rewrite get_set_same in Hloop. inversion Hloop; subst.
  apply get_set_same.
Qed.


(** The single digit after the point, right before the yuan word, is the
    first match when a single digit stands there. *)
Lemma first_match_one_digit (pre ip post : str) (d1 : char) :
  ~ In dollar pre -> forallb (fun c => negb (isdecimal c)) pre = true ->
  ip <> [] -> forallb isdecimal ip = true -> isdecimal d1 = true ->
  exists l m,
    finditer amount_pattern (pre ++ ip ++ point :: d1 :: yuan :: post)
    = Found m [(3, [d1])] :: l.
Proof.
  destruct point_facts as (Hp & Hsp & Hy & Hsy & Hm & Hdol).
  intros Hd Hpre Hne Hip Hd1. unfold finditer.
  rewrite scan_dead_prefix by (apply dead_before_digits; assumption).
  rewrite scan_dead_prefix.
  - cbn [scan]. rewrite amount_dead by (try exact Hp; vm_compute; discriminate).
    pose proof (@match_at_yuan [d1] [] post) as Hmatch.
    cbn [app] in Hmatch. rewrite Hmatch.
    + eexists; eexists; reflexivity.
    + discriminate.
    + simpl. rewrite Hd1. reflexivity.
    + left; reflexivity.
  - intros a c b E.
    change (c :: b ++ point :: d1 :: yuan :: post)
      with ((c :: b) ++ point :: d1 :: yuan :: post).
    apply one_digit_fraction_dead; [discriminate | | exact Hd1].
    rewrite E, forallb_app in Hip. apply andb_true_iff in Hip. tauto.
Qed.

End YuanAmount.

Import FloatFacts YuanFacts YuanAmount.



(** X21.  A price written with a single decimal before the yuan word is not
    read as a price: the digits before the point are passed over and the
    amount is the single digit after the point. *)
Theorem amount_single_decimal_misread
  (pre ip post : str) (d1 : char) (v1 : N) :
  ~ In dollar pre -> forallb (fun c => negb (isdecimal c)) pre = true ->
  ip <> [] -> forallb isdecimal ip = true -> to_decimal d1 = Some v1 ->
  exists info,
    extract_key_info (Some (pre ++ ip ++ point :: d1 :: yuan :: post))
      = Ret info /\
    dict_get info k_amount = Some (VFloat (integer_value [v1])).
Proof.
  intros Hd Hpre Hne Hip Hv.
  assert (Hd1 : isdecimal d1 = true) by (unfold isdecimal; rewrite Hv; auto).
  apply (@amount_from_third_group _ [d1]).
  - apply first_match_one_digit; assumption.
  - discriminate.
  - apply float_integer; [discriminate|]. simpl. rewrite Hv. reflexivity.
Qed.



Lemma amount_single_decimal_misread_witness :
  exists info,
    extract_key_info
      (Some (u "价格" ++ u "1234" ++ point :: 53%N :: yuan :: u "。"))
      = Ret info /\
    dict_get info k_amount = Some (VFloat (integer_value [5]%N)).
Proof.
  apply (@amount_single_decimal_misread (u "价格") (u "1234") (u "。")
           53%N 5%N).
  - apply absent. vm_compute. reflexivity.
  - vm_compute. reflexivity.
  - vm_compute. discriminate.
  - vm_compute. reflexivity.
  - vm_compute. reflexivity.
Defined.
